(** * Soil monitor: the i2c soil-moisture driver and the pump-control application

    A shallow embedding of the parts of the repository that decide the
    behaviour of acquisition, the sensor device's read/write protocol, the
    GPIO pump control, the MQTT connect loop and the main control loop.

    - [Driver]: i2c-soil-drv/main.c (the last, complete revision of the file)
      with i2c-soil-drv-int.h and i2c-soil-drv-api.h.
    - [App]: soil-mon-app/gpio.c, gpio.h and soil-monitor.c.

    C integers are modelled as [Z].  The values that the modelled code
    computes stay inside the range of [int] and [ssize_t]; the conversions
    that the code makes ([char] of a buffer, [int] to [unsigned int],
    [size_t] to [ssize_t]) are written out or pointed out where they
    occur. *)

From Stdlib Require Import String Ascii ZArith Bool Lia List.
Import ListNotations.
Open Scope Z_scope.

(* ===================================================================== *)
(** * The kernel driver *)
(* ===================================================================== *)

Module Driver.

(** ** Constants of i2c-soil-drv-int.h and of errno *)

Definition I2C_TOUCH_BASE_ADDR : Z := 0x0f.
Definition I2C_TOUCH_OFFSET : Z := 0x10.
Definition I2C_MSEC_DELAY : Z := 10.
Definition I2C_HIGH_OUT_OF_RANGE : Z := 4095.
Definition I2C_MAX_REREADS : nat := 4.

(** [#define I2C_READING_OUT_OF_BOUNDS(X) ((X < 0) || (X > I2C_HIGH_OUT_OF_RANGE))] *)
Definition I2C_READING_OUT_OF_BOUNDS (X : Z) : bool :=
  (X <? 0) || (X >? I2C_HIGH_OUT_OF_RANGE).

Definition I2C_MIN_RAW_DRY_READING : Z := 0x2a0.
Definition I2C_MAX_RAW_WET_READING : Z := 0x39f.
Definition I2C_MIN_DRY_READING : Z := 0.
Definition I2C_MAX_WET_READING : Z := 255.

Definition EIO : Z := 5.
Definition EFAULT : Z := 14.

(** ** The i2c bus

    The bus is outside the program.  What it answers is given by an oracle:
    for the [n]-th call of [i2c_master_send] the value it returns, and, for
    the [i2c_master_recv] that follows that send (when the code gets that
    far), the value it returns and the two bytes it leaves in the buffer. *)

Record txn_outcome : Type := mk_txn {
  send_ret : Z;   (* what i2c_master_send returns *)
  recv_ret : Z;   (* what i2c_master_recv returns *)
  recv_b0 : Z;    (* i2c_buf[0] after the receive *)
  recv_b1 : Z     (* i2c_buf[1] after the receive *)
}.

Definition i2c_bus : Type := nat -> txn_outcome.

(** What the driver does to the outside, in order. *)
Inductive kevent : Type :=
| KSend (b0 b1 : Z)      (* i2c_master_send of the two bytes *)
| KRecv (len : Z)        (* i2c_master_recv of len bytes *)
| KMsleep (ms : Z).      (* msleep *)

(** The state threaded through the driver's sensor code: how many sends were
    made so far (the index of the next oracle answer) and the events. *)
Record kworld : Type := mk_kworld {
  attempts : nat;
  klog : list kevent
}.

Definition kworld0 : kworld := mk_kworld 0 [].

Definition K (A : Type) : Type := kworld -> A * kworld.

Definition kret {A} (a : A) : K A := fun w => (a, w).
Definition kbind {A B} (m : K A) (f : A -> K B) : K B :=
  fun w => let (a, w') := m w in f a w'.

Declare Scope kern_scope.
Delimit Scope kern_scope with kern.
Notation "x <- m ;; k" := (kbind m (fun x => k))
  (at level 100, m at next level, right associativity) : kern_scope.
Notation "m ;; k" := (kbind m (fun _ => k))
  (at level 100, right associativity) : kern_scope.
Local Open Scope kern_scope.

Definition klog_event (e : kevent) : K unit :=
  fun w => (tt, mk_kworld (attempts w) (klog w ++ [e])).

Definition msleep (ms : Z) : K unit := klog_event (KMsleep ms).

(** [i2c_master_send(client, buf, 2)]: consumes the next oracle answer. *)
Definition i2c_master_send (bus : i2c_bus) (b0 b1 : Z) : K txn_outcome :=
  fun w => (bus (attempts w),
            mk_kworld (S (attempts w)) (klog w ++ [KSend b0 b1])).

(** [i2c_master_recv(client, buf, 2)] of the transaction opened by the send
    that answered [o]. *)
Definition i2c_master_recv (o : txn_outcome) (len : Z) : K (Z * (Z * Z)) :=
  fun w => ((recv_ret o, (recv_b0 o, recv_b1 o)),
            mk_kworld (attempts w) (klog w ++ [KRecv len])).

(** A [char] of the receive buffer.  The kernel is built with unsigned
    [char] (and [char] is unsigned on the ARM target), so a buffer byte is a
    value in 0..255. *)
Definition char_val (b : Z) : Z := b mod 256.

(** ** [i2c_soil_drv_single_read_sensor] *)
Definition i2c_soil_drv_single_read_sensor (bus : i2c_bus) : K Z :=
  (* i2c_buf[0] = I2C_TOUCH_BASE_ADDR; i2c_buf[1] = I2C_TOUCH_OFFSET; *)
  o <- i2c_master_send bus I2C_TOUCH_BASE_ADDR I2C_TOUCH_OFFSET ;;
  let retval := send_ret o in
  if retval <? 0 then kret retval
  else if negb (2 =? retval) then kret (- EIO)
  else
    msleep I2C_MSEC_DELAY ;;
    r <- i2c_master_recv o 2 ;;
    let retval := fst r in
    if retval <? 0 then kret retval
    else if negb (2 =? retval) then kret (- EIO)
    else
      (* retval = ((i2c_buf[0] << 8) | i2c_buf[1]); *)
      kret (Z.lor (Z.shiftl (char_val (fst (snd r))) 8) (char_val (snd (snd r)))).

(** The tail of [i2c_soil_drv_read_sensor]: what is returned for the last
    reading taken. *)
Definition normalize (reading : Z) : Z :=
  if I2C_READING_OUT_OF_BOUNDS reading then - EIO
  else if reading <? I2C_MIN_RAW_DRY_READING then I2C_MIN_DRY_READING
  else if reading >? I2C_MAX_RAW_WET_READING then I2C_MAX_WET_READING
  else reading - I2C_MIN_RAW_DRY_READING.

(** The [for] loop of [i2c_soil_drv_read_sensor].  [n] is the number of
    re-reads still allowed, [I2C_MAX_REREADS - i]. *)
Fixpoint reread_loop (bus : i2c_bus) (n : nat) (reading : Z) : K Z :=
  match n with
  | O => kret reading
  | S n' =>
      if I2C_READING_OUT_OF_BOUNDS reading then
        msleep I2C_MSEC_DELAY ;;
        reading' <- i2c_soil_drv_single_read_sensor bus ;;
        reread_loop bus n' reading'
      else kret reading
  end.

(** ** [i2c_soil_drv_read_sensor] *)
Definition i2c_soil_drv_read_sensor (bus : i2c_bus) : K Z :=
  reading <- i2c_soil_drv_single_read_sensor bus ;;
  reading <- reread_loop bus I2C_MAX_REREADS reading ;;
  kret (normalize reading).

(** ** The device: [struct i2c_soil_dev] and the file operations *)

(** The fields of [struct i2c_soil_dev] that the file operations use. *)
Record i2c_soil_dev : Type := mk_dev {
  use_simulation : Z;   (* int: 1=simulation (no i2c), 0=i2c mode *)
  sim_data : Z          (* unsigned char *)
}.

(** Strings of i2c-soil-drv-api.h.  A C string is the list of its bytes
    without the terminating NUL; reading past its end gives the NUL. *)
Definition bytes_of_string (s : string) : list Z :=
  map (fun a => Z.of_nat (nat_of_ascii a)) (list_ascii_of_string s).

Definition SIM_ON_CMD : list Z := bytes_of_string "sim-on"%string.
Definition SIM_OFF_CMD : list Z := bytes_of_string "sim-off"%string.
Definition MAX_CMD_BUF_SIZE : nat := 8.

Definition strlen (s : list Z) : nat := List.length s.

(** [strncmp(s1, s2, n)]: compares at most [n] characters and stops at a
    NUL; zero when no difference was met. *)
Fixpoint strncmp (s1 s2 : list Z) (n : nat) : Z :=
  match n with
  | O => 0
  | S n' =>
      let c1 := hd 0 s1 in
      let c2 := hd 0 s2 in
      if c1 =? c2 then
        if c1 =? 0 then 0 else strncmp (tl s1) (tl s2) n'
      else c1 - c2
  end.

(** User memory at the pointer [buf] of a read or write call is the list of
    the bytes that are accessible from [buf] on.  A copy of [n] bytes
    succeeds when that many bytes are accessible; the copy functions return
    the number of bytes NOT copied, zero on success. *)

(** [copy_to_user(buf, src, n)]: the user memory afterwards and the result. *)
Definition copy_to_user (ubuf src : list Z) (n : nat) : list Z * Z :=
  if (n <=? List.length ubuf)%nat
  then (firstn n src ++ skipn n ubuf, 0)
  else (ubuf, Z.of_nat n).

(** [copy_from_user(dst, buf, n)]: the destination afterwards and the result.
    On a fault the kernel clears what it could not copy. *)
Definition copy_from_user (dst ubuf : list Z) (n : nat) : list Z * Z :=
  if (n <=? List.length ubuf)%nat
  then (firstn n ubuf ++ skipn n dst, 0)
  else (repeat 0 n ++ skipn n dst, Z.of_nat n).

(** ** [i2c_soil_drv_read]

    [ubuf] is the user memory at [buf], [count] the requested size.  Returns
    the value of the call and the user memory afterwards. *)
Definition i2c_soil_drv_read (bus : i2c_bus) (dev : i2c_soil_dev)
    (ubuf : list Z) (count : nat) : K (Z * list Z) :=
  let count := 1%nat in
  moisture <-
    (if negb (use_simulation dev =? 0) then
       kret (inr (sim_data dev))
     else
       retval <- i2c_soil_drv_read_sensor bus ;;
       if retval <? 0 then kret (inl retval)   (* Sensor read failed, bail out *)
       else kret (inr (char_val retval))) ;;
  match moisture with
  | inl retval => kret (retval, ubuf)
  | inr moisture =>
      let (ubuf', not_copied) := copy_to_user ubuf [moisture] count in
      if negb (not_copied =? 0) then kret (- EFAULT, ubuf')
      else kret (Z.of_nat count, ubuf')
  end.

(** ** [i2c_soil_drv_write]

    [ubuf] is the user memory at [buf], [count] the size of the write and
    [stack] what the eight bytes of the automatic array [cmd_buf] hold when
    the function is entered (the array is not initialised).  Returns the
    value of the call and the device afterwards.

    [retval = count] converts a [size_t] to [ssize_t]; the kernel never
    passes a count above MAX_RW_COUNT, so the value is kept. *)
Definition i2c_soil_drv_write (dev : i2c_soil_dev) (ubuf : list Z)
    (count : nat) (stack : list Z) : Z * i2c_soil_dev :=
  let retval := Z.of_nat count in
  if (1 =? count)%nat then                      (* Case 1 *)
    if negb (use_simulation dev =? 0) then
      let (dst, not_copied) := copy_from_user [sim_data dev] ubuf count in
      let dev' := mk_dev (use_simulation dev) (hd 0 dst) in
      if negb (not_copied =? 0) then (- EFAULT, dev') else (retval, dev')
    else (retval, dev)
  else                                           (* Case 2, 3, or 4 *)
    let (cmd_buf, not_copied) :=
      copy_from_user stack ubuf (Nat.min MAX_CMD_BUF_SIZE count) in
    if negb (not_copied =? 0) then (- EFAULT, dev)
    else if strncmp cmd_buf SIM_ON_CMD (strlen SIM_ON_CMD) =? 0 then
      (retval, mk_dev 1 (sim_data dev))
    else if strncmp cmd_buf SIM_OFF_CMD (strlen SIM_OFF_CMD) =? 0 then
      (retval, mk_dev 0 (sim_data dev))
    else (retval, dev).

(** ** Vocabulary for the statements about the driver *)

(** What the [i]-th call of [i2c_soil_drv_single_read_sensor] returns and
    what it does on the bus: both are read off the code itself. *)
Definition reading_of_attempt (bus : i2c_bus) (i : nat) : Z :=
  fst (i2c_soil_drv_single_read_sensor bus (mk_kworld i [])).

Definition events_of_attempt (bus : i2c_bus) (i : nat) : list kevent :=
  klog (snd (i2c_soil_drv_single_read_sensor bus (mk_kworld i []))).

(** The events of [n] re-reads, the attempts [i], [i+1], ..., each one after
    its delay. *)
Definition reread_events (bus : i2c_bus) (i n : nat) : list kevent :=
  List.concat (map (fun j => KMsleep I2C_MSEC_DELAY :: events_of_attempt bus j)
              (seq i n)).

(** A transaction fails when the send or the receive does not transfer the
    two bytes: it returns an error (negative) or another count. *)
Definition transaction_failed (o : txn_outcome) : Prop :=
  send_ret o <> 2 \/ recv_ret o <> 2.

(** Two byte strings agree when they are equal on the positions that both
    have, that is, when one is a prefix of the other. *)
Fixpoint agrees (p c : list Z) : bool :=
  match p, c with
  | x :: p', y :: c' => (x =? y) && agrees p' c'
  | _, _ => true
  end.

(** ** Inputs used in the examples *)

(** A bus on which the first send fails with -EREMOTEIO and every later
    transaction gives the two bytes 0x03 0x00. *)
Definition flaky_bus : i2c_bus :=
  fun n => if (n =? 0)%nat then mk_txn (-121) 0 0 0 else mk_txn 2 2 0x03 0x00.

(** A bus whose first transaction gives the two bytes 0xff 0xff, whose
    second transaction fails in the receive with a partial transfer, and
    whose later transactions give the two bytes 0x03 0x00. *)
Definition late_failure_bus : i2c_bus :=
  fun n =>
    if (n =? 0)%nat then mk_txn 2 2 0xff 0xff
    else if (n =? 1)%nat then mk_txn 2 1 0 0
    else mk_txn 2 2 0x03 0x00.

(** A bus on which every transaction gives the two bytes 0xff 0xff. *)
Definition stuck_bus : i2c_bus := fun _ => mk_txn 2 2 0xff 0xff.

(** The seven bytes that [echo sim-on] writes: the command and a newline. *)
Definition sim_on_newline : list Z := SIM_ON_CMD ++ [10].

End Driver.


(* ===================================================================== *)
(** * The application: GPIO pump control, MQTT and the control loop *)
(* ===================================================================== *)

Module App.

Local Open Scope string_scope.

(** ** Constants of gpio.h, soil-monitor.c and of the C library *)

Definition GPIO_PIN : string := "17".
Definition GPIO_DIRECTORY : string := "/sys/class/gpio".
Definition GPIO_EXPORT : string := GPIO_DIRECTORY ++ "/export".
Definition GPIO_UNEXPORT : string := GPIO_DIRECTORY ++ "/unexport".
Definition GPIO_DIRECTION : string :=
  GPIO_DIRECTORY ++ "/gpio" ++ GPIO_PIN ++ "/direction".
Definition GPIO_INPUT : string := "in".
Definition GPIO_OUTPUT : string := "out".
Definition GPIO_VALUE : string :=
  GPIO_DIRECTORY ++ "/gpio" ++ GPIO_PIN ++ "/value".
Definition GPIO_ON : string := "1".
Definition GPIO_OFF : string := "0".
Definition GPIO_ERROR : Z := -1.
Definition GPIO_OK : Z := 0.

Definition I2C_SOIL_DEV : string := "/dev/i2c-soil-drv".

Local Close Scope string_scope.

Definition EXIT_SUCCESS : Z := 0.
Definition EXIT_FAILURE : Z := 1.
Definition SIGINT : Z := 2.
Definition SIGUSR1 : Z := 10.
Definition SIGTERM : Z := 15.
Definition MQTTCLIENT_SUCCESS : Z := 0.

(** [strlen] of a C string, as the [int num_bytes] of gpio.c. *)
Definition strlen (s : string) : Z := Z.of_nat (String.length s).

(** An [int] passed where [unsigned int] is expected ([sleep]). *)
Definition to_unsigned (x : Z) : Z := x mod 2 ^ 32.

(** ** Calls to the outside

    The texts that the program logs or publishes, by the format string that
    builds them. *)
Inductive message : Type :=
| MsgInitDone                 (* "Init done, entering main loop\n" *)
| MsgCurrent (current : Z)    (* "Current moisture=%d\n" *)
| MsgPumpOn (pump_time : Z)   (* "Pump on, runtime=%d sec\n" *)
| MsgPumpOff                  (* "Pump off\n" *)
| MsgSleeping (sleep_time : Z)(* "Sleeping for %d sec\n" *)
| MsgCaught (signal : Z)      (* "Caught signal %s, exiting.\n" *)
| MsgConnectSuccess           (* "MQTTClient_connect success.\n" *)
| MsgConnectFailed (r : Z)    (* "MQTTClient_connect failed, returned %d.\n" *)
| MsgConnectionLost           (* "MQTT connection lost, attempting reconnection..." *)
| MsgPublishFailed (r : Z).   (* "MQTTClient_publishMessage failed, retval=%d\n" *)

Inductive call : Type :=
| Open (path : string)                 (* open(path, flags) *)
| Write (fd : Z) (data : string)       (* write(fd, data, strlen(data)) *)
| Close (fd : Z)                       (* close(fd) *)
| Read (fd : Z) (count : Z)            (* read(fd, &current, count) *)
| Sleep (seconds : Z)                  (* sleep(seconds) *)
| MQTTClient_create
| MQTTClient_setCallbacks
| MQTTClient_connect
| MQTTClient_publishMessage (m : message)
| Syslog (m : message)
| Perror.

(** What a call gives back: its value and, for [Read], the byte stored. *)
Record reply : Type := mk_reply { rv : Z; rdata : Z }.

(** The outside (operating system, sysfs, broker): a state and the answer it
    gives to each call. *)
Record environment : Type := mk_env {
  env_state : Type;
  env_step : env_state -> call -> reply * env_state
}.

Section Programs.

Context {Ev : environment}.

(** The state threaded through the program: the state of the outside and the
    calls made so far with their values. *)
Record world : Type := mk_world {
  est : env_state Ev;
  trace : list (call * Z)
}.

(** A computation returns, or ends the process with [exit(status)]. *)
Inductive outcome (A : Type) : Type :=
| Ret (a : A)
| Exit (status : Z).

Definition prog (A : Type) : Type := world -> outcome A * world.

Definition ret {A} (a : A) : prog A := fun w => (Ret A a, w).

Definition bind {A B} (m : prog A) (f : A -> prog B) : prog B :=
  fun w =>
    match m w with
    | (Ret _ a, w') => f a w'
    | (Exit _ status, w') => (Exit B status, w')
    end.

Definition exit {A} (status : Z) : prog A := fun w => (Exit A status, w).

Definition sys (c : call) : prog reply :=
  fun w =>
    let (r, e') := env_step Ev (est w) c in
    (Ret reply r, mk_world e' (trace w ++ [(c, rv r)])).

End Programs.

Arguments world : clear implicits.
Arguments prog : clear implicits.
Arguments Ret {A} a.
Arguments Exit {A} status.

Declare Scope prog_scope.
Delimit Scope prog_scope with prog.
Notation "x <- m ;; k" := (bind m (fun x => k))
  (at level 100, m at next level, right associativity) : prog_scope.
Notation "m ;; k" := (bind m (fun _ => k))
  (at level 100, right associativity) : prog_scope.
Local Open Scope prog_scope.

Section Code.

Context {Ev : environment}.

Definition sys_rv (c : call) : prog Ev Z := r <- sys c ;; ret (rv r).

Definition syslog (m : message) : prog Ev unit := sys (Syslog m) ;; ret tt.
Definition perror : prog Ev unit := sys Perror ;; ret tt.
Definition sleep (seconds : Z) : prog Ev unit :=
  sys (Sleep (to_unsigned seconds)) ;; ret tt.

(** ** gpio.c *)

(** The condition of each [if] of gpio.c,
    [((fd = open(path, O_WRONLY)) == -1) ||
     (write(fd, data, num_bytes) != num_bytes) || close(fd)]
    with [num_bytes = strlen(data)]; [||] stops at the first true operand. *)
Definition open_write_close_fails (path data : string) : prog Ev bool :=
  let num_bytes := strlen data in
  fd <- sys_rv (Open path) ;;
  if fd =? -1 then ret true
  else
    n <- sys_rv (Write fd data) ;;
    if negb (n =? num_bytes) then ret true
    else
      c <- sys_rv (Close fd) ;;
      ret (negb (c =? 0)).

Definition gpio_enable : prog Ev Z :=
  (* Export enables control, creates additional gpio pin entries in sysfs *)
  failed <- open_write_close_fails GPIO_EXPORT GPIO_PIN ;;
  if failed then ret GPIO_ERROR
  else
    (* Set pin as output *)
    failed <- open_write_close_fails GPIO_DIRECTION GPIO_OUTPUT ;;
    if failed then ret GPIO_ERROR
    else ret GPIO_OK.

Definition gpio_disable : prog Ev Z :=
  (* Setting pin as an input disables drive, regardless of current state *)
  failed <- open_write_close_fails GPIO_DIRECTION GPIO_INPUT ;;
  if failed then ret GPIO_ERROR
  else
    (* Unexport disables control, removes gpio pin entries from sysfs *)
    failed <- open_write_close_fails GPIO_UNEXPORT GPIO_PIN ;;
    if failed then ret GPIO_ERROR
    else ret GPIO_OK.

Definition gpio_on : prog Ev Z :=
  failed <- open_write_close_fails GPIO_VALUE GPIO_ON ;;
  if failed then ret GPIO_ERROR else ret GPIO_OK.

Definition gpio_off : prog Ev Z :=
  failed <- open_write_close_fails GPIO_VALUE GPIO_OFF ;;
  if failed then ret GPIO_ERROR else ret GPIO_OK.

(** ** soil-monitor.c *)

(** [signal_handler] *)
Definition signal_handler (signal : Z) : prog Ev unit :=
  if SIGUSR1 =? signal then
    (* Do nothing, sleep will return early *)
    ret tt
  else
    syslog (MsgCaught signal) ;;
    (* Disable GPIO control - ignore errors, since we are exiting anyway *)
    _ <- gpio_disable ;;
    exit EXIT_SUCCESS.

(** The [while] loop of [mqtt_client_connect]; [n] is the number of turns
    still allowed, [5 - conn_attempt_count]. *)
Fixpoint connect_retry (n : nat) (conn_attempt_result : Z) : prog Ev Z :=
  match n with
  | O => ret conn_attempt_result
  | S n' =>
      if negb (conn_attempt_result =? MQTTCLIENT_SUCCESS) then
        sleep 5 ;;
        conn_attempt_result' <- sys_rv MQTTClient_connect ;;
        connect_retry n' conn_attempt_result'
      else ret conn_attempt_result
  end.

(** [mqtt_client_connect] *)
Definition mqtt_client_connect : prog Ev Z :=
  conn_attempt_result <- sys_rv MQTTClient_connect ;;
  conn_attempt_result <- connect_retry 5 conn_attempt_result ;;
  (if conn_attempt_result =? MQTTCLIENT_SUCCESS
   then syslog MsgConnectSuccess
   else syslog (MsgConnectFailed conn_attempt_result)) ;;
  ret conn_attempt_result.

(** [mqtt_connection_lost] *)
Definition mqtt_connection_lost : prog Ev unit :=
  syslog MsgConnectionLost ;;
  _ <- mqtt_client_connect ;;
  ret tt.

(** [mqtt_client_init] *)
Definition mqtt_client_init : prog Ev unit :=
  r <- sys_rv MQTTClient_create ;;
  if negb (r =? MQTTCLIENT_SUCCESS) then perror ;; exit EXIT_FAILURE
  else
    r <- sys_rv MQTTClient_setCallbacks ;;
    if negb (r =? MQTTCLIENT_SUCCESS) then perror ;; exit EXIT_FAILURE
    else
      (* Connect will fail if not connected to the internet *)
      r <- mqtt_client_connect ;;
      if negb (r =? MQTTCLIENT_SUCCESS) then perror ;; exit EXIT_FAILURE
      else ret tt.

(** [mqtt_publish_msg] *)
Definition mqtt_publish_msg (m : message) : prog Ev unit :=
  retval <- sys_rv (MQTTClient_publishMessage m) ;;
  if negb (retval =? MQTTCLIENT_SUCCESS) then
    syslog (MsgPublishFailed retval) ;; perror
  else ret tt.

(** The options of [main] that the loop uses. *)
Record config : Type := mk_config {
  target : Z;                (* unsigned char *)
  sleep_time : Z;            (* int *)
  pump_time : Z;             (* int *)
  mqtt_broker_uri : bool     (* whether the pointer is non-NULL *)
}.

(** [syslog(LOG_USER|LOG_INFO, msgbuf); if (mqtt_broker_uri) mqtt_publish_msg(...)] *)
Definition report (cfg : config) (m : message) : prog Ev unit :=
  syslog m ;;
  if mqtt_broker_uri cfg then mqtt_publish_msg m else ret tt.

(** The body of the [while (1)] loop of [main]. *)
Definition loop_body (cfg : config) (soil_drv_fd : Z) : prog Ev unit :=
  (* Read current moisture level *)
  r <- sys (Read soil_drv_fd 1) ;;
  if negb (rv r =? 1) then
    perror ;;
    (* Disable GPIO control - ignore errors; exiting anyway *)
    _ <- gpio_disable ;;
    exit EXIT_FAILURE
  else
    let current := rdata r mod 256 in
    report cfg (MsgCurrent current) ;;
    (if current <? target cfg then
       e <- gpio_on ;;
       if e =? GPIO_ERROR then
         perror ;; _ <- gpio_disable ;; exit EXIT_FAILURE
       else
         report cfg (MsgPumpOn (pump_time cfg)) ;;
         sleep (pump_time cfg) ;;
         e <- gpio_off ;;
         if e =? GPIO_ERROR then
           perror ;; _ <- gpio_disable ;; exit EXIT_FAILURE
         else
           report cfg MsgPumpOff
     else ret tt) ;;
    report cfg (MsgSleeping (sleep_time cfg)) ;;
    sleep (sleep_time cfg).

(** The first [n] turns of the [while (1)] loop. *)
Fixpoint main_loop (n : nat) (cfg : config) (soil_drv_fd : Z) : prog Ev unit :=
  match n with
  | O => ret tt
  | S n' => loop_body cfg soil_drv_fd ;; main_loop n' cfg soil_drv_fd
  end.

End Code.

(** ** Two environments

    The first is the part of the operating system that the application
    talks to: the sysfs files of the GPIO pin and the sensor device.  Its
    rules are the ones that gpio.c relies on in its comments: a pin that is
    exported cannot be exported again, a pin that is not exported cannot be
    unexported, and its direction and value files exist only while it is
    exported.  The level of the pin is driven only while the direction is
    "out".  No call fails for another reason. *)

Inductive file : Type := FExport | FUnexport | FDirection | FValue | FSoilDev.

(** What happens at the pin and to the clock. *)
Inductive pin_event : Type :=
| Drive (high : bool)     (* the pin drives the level *)
| Release                 (* the pin becomes an input, drive is shut off *)
| Elapsed (seconds : Z).  (* the process slept *)

Record sysfs : Type := mk_sysfs {
  exported : bool;
  direction_out : bool;
  value_high : bool;
  fds : list (Z * file);     (* the open file descriptors *)
  next_fd : nat;             (* the next descriptor that open returns *)
  readings : list Z;         (* the bytes that the sensor device will give *)
  pin_log : list pin_event
}.

Definition file_of_path (path : string) : option file :=
  if String.eqb path GPIO_EXPORT then Some FExport
  else if String.eqb path GPIO_UNEXPORT then Some FUnexport
  else if String.eqb path GPIO_DIRECTION then Some FDirection
  else if String.eqb path GPIO_VALUE then Some FValue
  else if String.eqb path I2C_SOIL_DEV then Some FSoilDev
  else None.

Definition file_present (st : sysfs) (f : file) : bool :=
  match f with
  | FDirection | FValue => exported st
  | _ => true
  end.

Fixpoint fd_lookup (fd : Z) (l : list (Z * file)) : option file :=
  match l with
  | [] => None
  | (fd', f) :: l' => if fd' =? fd then Some f else fd_lookup fd l'
  end.

Fixpoint fd_remove (fd : Z) (l : list (Z * file)) : list (Z * file) :=
  match l with
  | [] => []
  | (fd', f) :: l' => if fd' =? fd then l' else (fd', f) :: fd_remove fd l'
  end.

(** A call that fails returns -1 and changes nothing. *)
Definition sysfs_failed (st : sysfs) : reply * sysfs := (mk_reply (-1) 0, st).

Definition sysfs_open (st : sysfs) (path : string) : reply * sysfs :=
  match file_of_path path with
  | Some f =>
      if file_present st f then
        let fd := Z.of_nat (next_fd st) in
        (mk_reply fd 0,
         mk_sysfs (exported st) (direction_out st) (value_high st)
                  ((fd, f) :: fds st) (S (next_fd st)) (readings st) (pin_log st))
      else sysfs_failed st
  | None => sysfs_failed st
  end.

Definition sysfs_write (st : sysfs) (fd : Z) (data : string) : reply * sysfs :=
  let done (ex out high : bool) (lg : list pin_event) :=
    (mk_reply (strlen data) 0,
     mk_sysfs ex out high (fds st) (next_fd st) (readings st) lg) in
  match fd_lookup fd (fds st) with
  | Some FExport =>
      if String.eqb data GPIO_PIN && negb (exported st)
      then done true false (value_high st) (pin_log st)
      else sysfs_failed st
  | Some FUnexport =>
      if String.eqb data GPIO_PIN && exported st
      then done false (direction_out st) (value_high st) (pin_log st)
      else sysfs_failed st
  | Some FDirection =>
      if exported st then
        if String.eqb data GPIO_INPUT
        then done true false (value_high st) (pin_log st ++ [Release])
        else if String.eqb data GPIO_OUTPUT
        then done true true false (pin_log st ++ [Drive false])
        else sysfs_failed st
      else sysfs_failed st
  | Some FValue =>
      if exported st && direction_out st then
        if String.eqb data GPIO_ON
        then done true true true (pin_log st ++ [Drive true])
        else if String.eqb data GPIO_OFF
        then done true true false (pin_log st ++ [Drive false])
        else sysfs_failed st
      else sysfs_failed st
  | Some FSoilDev =>
      (* the driver reports every write as consumed *)
      done (exported st) (direction_out st) (value_high st) (pin_log st)
  | None => sysfs_failed st
  end.

Definition sysfs_close (st : sysfs) (fd : Z) : reply * sysfs :=
  match fd_lookup fd (fds st) with
  | Some _ =>
      (mk_reply 0 0,
       mk_sysfs (exported st) (direction_out st) (value_high st)
                (fd_remove fd (fds st)) (next_fd st) (readings st) (pin_log st))
  | None => sysfs_failed st
  end.

Definition sysfs_read (st : sysfs) (fd : Z) : reply * sysfs :=
  match fd_lookup fd (fds st), readings st with
  | Some FSoilDev, b :: rest =>
      (mk_reply 1 b,
       mk_sysfs (exported st) (direction_out st) (value_high st)
                (fds st) (next_fd st) rest (pin_log st))
  | _, _ => sysfs_failed st
  end.

Definition sysfs_step (st : sysfs) (c : call) : reply * sysfs :=
  match c with
  | Open path => sysfs_open st path
  | Write fd data => sysfs_write st fd data
  | Close fd => sysfs_close st fd
  | Read fd _ => sysfs_read st fd
  | Sleep seconds =>
      (mk_reply 0 0,
       mk_sysfs (exported st) (direction_out st) (value_high st)
                (fds st) (next_fd st) (readings st) (pin_log st ++ [Elapsed seconds]))
  | _ => (mk_reply 0 0, st)
  end.

Definition sysfs_env : environment := mk_env sysfs sysfs_step.

(** The second environment is a broker whose answer to the [n]-th
    [MQTTClient_connect] is [results n]; the state counts the connection
    attempts made.  Every other call succeeds. *)
Definition broker_env (results : nat -> Z) : environment :=
  mk_env nat
    (fun n c =>
       match c with
       | MQTTClient_connect => (mk_reply (results n) 0, S n)
       | _ => (mk_reply 0 0, n)
       end).

(** ** Vocabulary for the statements about the application *)

(** The three calls of one [if] of gpio.c when all succeed on descriptor
    [fd]. *)
Definition owc_steps (path data : string) (fd : Z) : list (call * Z) :=
  [(Open path, fd); (Write fd data, strlen data); (Close fd, 0)].

(** The runs of one [if] of gpio.c: the calls made with their values, and
    whether the condition is true (the step failed). *)
Inductive owc_run (path data : string) : bool -> list (call * Z) -> Prop :=
| owc_open_failed :
    owc_run path data true [(Open path, -1)]
| owc_write_failed (fd n : Z) :
    fd <> -1 -> n <> strlen data ->
    owc_run path data true [(Open path, fd); (Write fd data, n)]
| owc_close_failed (fd c : Z) :
    fd <> -1 -> c <> 0 ->
    owc_run path data true
      [(Open path, fd); (Write fd data, strlen data); (Close fd, c)]
| owc_done (fd : Z) :
    fd <> -1 ->
    owc_run path data false (owc_steps path data fd).

(** Calls that actuate the pump or pace it: a call on the value file, a
    write of a level, a sleep. *)
Definition is_pump_call (c : call) : bool :=
  match c with
  | Open path => String.eqb path GPIO_VALUE
  | Write _ data => String.eqb data GPIO_ON || String.eqb data GPIO_OFF
  | Sleep _ => true
  | _ => false
  end.

(** What one turn of the control loop does at the pin for the reading
    [current]. *)
Definition pump_cycle (cfg : config) (current : Z) : list pin_event :=
  (if current <? target cfg
   then [Drive true; Elapsed (pump_time cfg); Drive false]
   else []) ++ [Elapsed (sleep_time cfg)].

(** The calls of a connection that makes [k] retries from the state [n] of
    the broker. *)
Definition connect_calls (results : nat -> Z) (n k : nat) : list (call * Z) :=
  (MQTTClient_connect, results n)
  :: flat_map (fun j => [(Sleep 5, 0); (MQTTClient_connect, results j)])
              (seq (S n) k).

(** ** Inputs used in the examples *)

(** A broker that refuses the first five connections and accepts the
    sixth. *)
Definition sixth_time_lucky : nat -> Z :=
  fun n => if (n <? 5)%nat then -1 else MQTTCLIENT_SUCCESS.

(** The system once [main] has opened the sensor device on descriptor 3
    and enabled the pin, with the readings [100; 150] to come. *)
Definition running_sysfs : sysfs :=
  mk_sysfs true true false [(3, FSoilDev)] 4 [100; 150] [Drive false].

(** The same with no reading left: the next read of the sensor fails. *)
Definition sensor_gone : sysfs :=
  mk_sysfs true true false [(3, FSoilDev)] 4 [] [Drive false].

Definition default_config : config := mk_config 128 3600 5 false.

(** Calls on files, and sleeps. *)
Definition is_file_call (c : call) : bool :=
  match c with
  | Open _ | Write _ _ | Close _ => true
  | _ => false
  end.

Definition is_sleep_call (c : call) : bool :=
  match c with
  | Sleep _ => true
  | _ => false
  end.

(** A traced call that is neither a call on a file nor a sleep. *)
Definition quiet (e : call * Z) : Prop :=
  is_file_call (fst e) = false /\ is_sleep_call (fst e) = false.

(** The sysfs files with the pin not exported yet, the sensor device open
    on descriptor 3 and the reading 100 to come. *)
Definition pin_not_enabled : sysfs :=
  mk_sysfs false false false [(3, FSoilDev)] 4 [100] [].

(** An environment in which every call succeeds and the sensor reads 100,
    except that the level "0" cannot be written: the pump cannot be turned
    off. *)
Definition stuck_high_env : environment :=
  mk_env unit
    (fun _ c =>
       match c with
       | Open _ => (mk_reply 5 0, tt)
       | Write _ data =>
           (mk_reply (if String.eqb data GPIO_OFF then -1 else strlen data) 0, tt)
       | Read _ _ => (mk_reply 1 100, tt)
       | _ => (mk_reply 0 0, tt)
       end).

End App.

(* ===================================================================== *)
(** * The kernel driver: loading and unloading the module *)
(* ===================================================================== *)

Module DriverLifecycle.

Import Driver.

(** ** Constants of main.c, i2c-soil-drv-int.h and of the kernel headers *)

Definition NUM_MINORS : Z := 1.
Definition I2C_BUS_NUM : Z := 1.
Definition I2C_BUS_ADDR : Z := 0x36.
Definition ENOMEM : Z := 12.

(** linux/kdev_t.h: a device number holds the minor in its 20 low bits. *)
Definition MINORBITS : Z := 20.
Definition MAJOR (dev : Z) : Z := Z.shiftr dev MINORBITS.
Definition MINOR (dev : Z) : Z := Z.land dev (Z.ones MINORBITS).
Definition MKDEV (ma mi : Z) : Z := Z.lor (Z.shiftl ma MINORBITS) mi.

(** linux/err.h: a pointer is an error when, as a [long], it is one of
    -MAX_ERRNO .. -1; [PTR_ERR] is then that number. *)
Definition MAX_ERRNO : Z := 4095.
Definition IS_ERR (ptr : Z) : bool := (- MAX_ERRNO <=? ptr) && (ptr <? 0).
Definition PTR_ERR (ptr : Z) : Z := ptr.

(** ** The kernel

    What the kernel answers to the four calls of [i2c_soil_drv_init] that
    can fail.  [alloc_devnum] is what [alloc_chrdev_region] stores in
    [devnum] when it succeeds; when it fails it leaves [devnum] as it is. *)
Record init_answers : Type := mk_answers {
  alloc_ret : Z;       (* alloc_chrdev_region *)
  alloc_devnum : Z;
  adapter_ptr : Z;     (* i2c_get_adapter: 0 is NULL *)
  client_ptr : Z;      (* i2c_new_dummy_device: a pointer or an ERR_PTR *)
  cdev_add_ret : Z     (* cdev_add *)
}.

(** The calls made to the kernel, with their arguments and values. *)
Inductive kcall : Type :=
| AllocChrdevRegion (baseminor count ret devnum : Z)
| CdevInit
| I2cGetAdapter (nr ptr : Z)
| I2cNewDummyDevice (adapter addr ptr : Z)
| CdevAdd (devnum count ret : Z)
| CdevDel
| I2cUnregisterDevice (client : Z)
| UnregisterChrdevRegion (devnum count : Z).

(** The globals of main.c: the two numbers and [i2c_soil_device], whose
    pointer fields are kept beside the fields of [i2c_soil_dev]. *)
Record module_state : Type := mk_module {
  i2c_soil_dev_major : Z;
  i2c_soil_dev_minor : Z;
  i2c_soil_device : i2c_soil_dev;
  p_i2c_adapter : Z;
  p_i2c_client : Z
}.

(** The globals when the module is loaded: both numbers are initialised
    to 0, the device is in zeroed memory. *)
Definition module_loaded : module_state := mk_module 0 0 (mk_dev 0 0) 0 0.

(** ** [i2c_soil_drv_init]

    Returns the value of the function, the globals afterwards and the calls
    made.  Each [goto] is written as the calls from its label to the
    [return]; the messages ([printk], [PDEBUG]) are left out. *)
Definition i2c_soil_drv_init (a : init_answers) (m : module_state)
  : Z * module_state * list kcall :=
  let devnum := if alloc_ret a <? 0 then 0 else alloc_devnum a in
  let retval := alloc_ret a in
  let t1 := [AllocChrdevRegion (i2c_soil_dev_minor m) NUM_MINORS retval devnum] in
  (* i2c_soil_dev_major = MAJOR(devnum); *)
  let m1 := mk_module (MAJOR devnum) (i2c_soil_dev_minor m)
                      (i2c_soil_device m) (p_i2c_adapter m) (p_i2c_client m) in
  if retval <? 0 then
    (* goto alloc_chrdev_region_failed *)
    (retval, m1, t1)
  else
    (* memset(&i2c_soil_device, 0, sizeof(struct i2c_soil_dev)); cdev_init *)
    let t2 := t1 ++ [CdevInit] in
    let adapter := adapter_ptr a in
    let t3 := t2 ++ [I2cGetAdapter I2C_BUS_NUM adapter] in
    let m3 := mk_module (MAJOR devnum) (i2c_soil_dev_minor m)
                        (mk_dev 0 0) adapter 0 in
    if adapter =? 0 then
      (* retval = -ENOMEM; goto i2c_get_adapter_failed *)
      (- ENOMEM, m3, t3 ++ [UnregisterChrdevRegion devnum NUM_MINORS])
    else
      let client := client_ptr a in
      let t4 := t3 ++ [I2cNewDummyDevice adapter I2C_BUS_ADDR client] in
      let m4 := mk_module (MAJOR devnum) (i2c_soil_dev_minor m)
                          (mk_dev 0 0) adapter client in
      if IS_ERR client then
        (* retval = PTR_ERR(...); goto i2c_new_dummy_failed *)
        (PTR_ERR client, m4, t4 ++ [UnregisterChrdevRegion devnum NUM_MINORS])
      else
        let retval := cdev_add_ret a in
        let t5 := t4 ++ [CdevAdd devnum NUM_MINORS retval] in
        if retval <? 0 then
          (* goto cdev_add_failed *)
          (retval, m4,
           t5 ++ [I2cUnregisterDevice client;
                  UnregisterChrdevRegion devnum NUM_MINORS])
        else
          (0, m4, t5).

(** ** [i2c_soil_drv_cleanup] *)
Definition i2c_soil_drv_cleanup (m : module_state) : list kcall :=
  let devnum := MKDEV (i2c_soil_dev_major m) (i2c_soil_dev_minor m) in
  [CdevDel;
   I2cUnregisterDevice (p_i2c_client m);
   UnregisterChrdevRegion devnum NUM_MINORS].

(** ** Vocabulary: what the module holds after a list of calls

    A region is held from an [alloc_chrdev_region] that did not fail to the
    [unregister_chrdev_region] of its number, a client from an
    [i2c_new_dummy_device] that gave no error to its
    [i2c_unregister_device], and the character device from a [cdev_add]
    that did not fail to [cdev_del].  An [i2c_get_adapter] that gives an
    adapter takes a reference to it; main.c has no call that gives it back
    (its comments ask whether there is one), so no call of [kcall] lets go
    of it.  [None] when something is released that is not held. *)
Record holdings : Type := mk_holdings {
  regions : list Z;
  clients : list Z;
  cdevs : nat;
  adapters : list Z
}.

Fixpoint remove_one (x : Z) (l : list Z) : option (list Z) :=
  match l with
  | [] => None
  | y :: l' =>
      if x =? y then Some l'
      else match remove_one x l' with
           | Some l'' => Some (y :: l'')
           | None => None
           end
  end.

Definition hold_step (h : holdings) (c : kcall) : option holdings :=
  match c with
  | AllocChrdevRegion _ _ ret devnum =>
      Some (if ret <? 0 then h
            else mk_holdings (devnum :: regions h) (clients h) (cdevs h)
                             (adapters h))
  | I2cGetAdapter _ ptr =>
      Some (if ptr =? 0 then h
            else mk_holdings (regions h) (clients h) (cdevs h)
                             (ptr :: adapters h))
  | I2cNewDummyDevice _ _ ptr =>
      Some (if IS_ERR ptr then h
            else mk_holdings (regions h) (ptr :: clients h) (cdevs h)
                             (adapters h))
  | CdevAdd _ _ ret =>
      Some (if ret <? 0 then h
            else mk_holdings (regions h) (clients h) (S (cdevs h))
                             (adapters h))
  | CdevDel =>
      match cdevs h with
      | O => None
      | S n => Some (mk_holdings (regions h) (clients h) n (adapters h))
      end
  | I2cUnregisterDevice client =>
      match remove_one client (clients h) with
      | Some l => Some (mk_holdings (regions h) l (cdevs h) (adapters h))
      | None => None
      end
  | UnregisterChrdevRegion devnum _ =>
      match remove_one devnum (regions h) with
      | Some l => Some (mk_holdings l (clients h) (cdevs h) (adapters h))
      | None => None
      end
  | CdevInit => Some h
  end.

Fixpoint held (h : holdings) (t : list kcall) : option holdings :=
  match t with
  | [] => Some h
  | c :: t' =>
      match hold_step h c with
      | Some h' => held h' t'
      | None => None
      end
  end.

Definition nothing_held : holdings := mk_holdings [] [] 0 [].

(** ** Inputs used in the examples *)

(** Every call succeeds: major 240, minor 0. *)
Definition all_fine : init_answers :=
  mk_answers 0 (MKDEV 240 0) 0x1000 0x2000 0.


End DriverLifecycle.


(* ===================================================================== *)
(** * Properties of the driver *)
(* ===================================================================== *)

Section DriverProperties.

Import Driver.
Local Open Scope kern_scope.

Ltac break_if :=
  match goal with
  | |- context [if ?b then _ else _] => destruct b eqn:?
  end.

(** ** Normalization *)

Lemma out_of_bounds_false (r : Z) :
  I2C_READING_OUT_OF_BOUNDS r = false <-> 0 <= r <= I2C_HIGH_OUT_OF_RANGE.
Proof.
  unfold I2C_READING_OUT_OF_BOUNDS. rewrite orb_false_iff.
  rewrite Z.ltb_ge, Z.gtb_ltb, Z.ltb_ge. tauto.
Qed.

Lemma out_of_bounds_true (r : Z) :
  I2C_READING_OUT_OF_BOUNDS r = true <-> r < 0 \/ I2C_HIGH_OUT_OF_RANGE < r.
Proof.
  unfold I2C_READING_OUT_OF_BOUNDS. rewrite orb_true_iff.
  rewrite Z.ltb_lt, Z.gtb_ltb, Z.ltb_lt. tauto.
Qed.

Lemma normalize_in_bounds (r : Z) :
  0 <= r <= I2C_HIGH_OUT_OF_RANGE ->
  normalize r = Z.max 0 (Z.min 255 (r - I2C_MIN_RAW_DRY_READING)).
Proof.
  intros Hr. unfold normalize.
  rewrite (proj2 (out_of_bounds_false r) Hr).
  unfold I2C_MIN_RAW_DRY_READING, I2C_MAX_RAW_WET_READING,
    I2C_MIN_DRY_READING, I2C_MAX_WET_READING in *.
  destruct (Z.ltb_spec r 672); [lia|].
  rewrite Z.gtb_ltb. destruct (Z.ltb_spec 927 r); lia.
Qed.

Lemma normalize_out_of_bounds (r : Z) :
  I2C_READING_OUT_OF_BOUNDS r = true -> normalize r = - EIO.
Proof. intros H. unfold normalize. now rewrite H. Qed.

Lemma normalize_negative_iff (r : Z) :
  normalize r < 0 <-> I2C_READING_OUT_OF_BOUNDS r = true.
Proof.
  destruct (I2C_READING_OUT_OF_BOUNDS r) eqn:E.
  - rewrite (normalize_out_of_bounds r E). unfold EIO. split; [reflexivity | lia].
  - apply out_of_bounds_false in E. rewrite (normalize_in_bounds r E).
    split; [lia | discriminate].
Qed.

(** C3.  On the readings that are in bounds, the normalization is monotonic
    non-decreasing, stays within 0..255, sends every reading up to
    I2C_MIN_RAW_DRY_READING to 0 and every reading from
    I2C_MAX_RAW_WET_READING on to 255; in particular it is 0 at
    I2C_MIN_RAW_DRY_READING and 255 at I2C_MAX_RAW_WET_READING. *)
Theorem normalize_monotone_saturating (r s : Z) :
  I2C_READING_OUT_OF_BOUNDS r = false ->
  I2C_READING_OUT_OF_BOUNDS s = false ->
  r <= s ->
  normalize r <= normalize s /\
  0 <= normalize r <= 255 /\
  (r <= I2C_MIN_RAW_DRY_READING -> normalize r = 0) /\
  (I2C_MAX_RAW_WET_READING <= r -> normalize r = 255) /\
  normalize I2C_MIN_RAW_DRY_READING = 0 /\
  normalize I2C_MAX_RAW_WET_READING = 255.
Proof.
  intros Hr Hs Hle.
  apply out_of_bounds_false in Hr. apply out_of_bounds_false in Hs.
  rewrite (normalize_in_bounds r Hr), (normalize_in_bounds s Hs).
  unfold I2C_MIN_RAW_DRY_READING, I2C_MAX_RAW_WET_READING in *.
  repeat split; try lia.
Qed.

Lemma normalize_monotone_saturating_witness :
  normalize 700 <= normalize 900 /\
  0 <= normalize 700 <= 255 /\
  (700 <= I2C_MIN_RAW_DRY_READING -> normalize 700 = 0) /\
  (I2C_MAX_RAW_WET_READING <= 700 -> normalize 700 = 255) /\
  normalize I2C_MIN_RAW_DRY_READING = 0 /\
  normalize I2C_MAX_RAW_WET_READING = 255.
Proof.
  apply (normalize_monotone_saturating 700 900); [reflexivity | reflexivity | lia].
Defined.

(** ** Acquisition: transactions and re-reads *)

(** A single read depends on the world only through the index of the
    attempt: it returns [reading_of_attempt], counts one attempt and appends
    [events_of_attempt]. *)
Lemma single_read_sensor_eq (bus : i2c_bus) (w : kworld) :
  i2c_soil_drv_single_read_sensor bus w =
  (reading_of_attempt bus (attempts w),
   mk_kworld (S (attempts w)) (klog w ++ events_of_attempt bus (attempts w))).
Proof.
  unfold reading_of_attempt, events_of_attempt, i2c_soil_drv_single_read_sensor,
    kbind, kret, i2c_master_send, i2c_master_recv, msleep, klog_event.
  destruct w as [a l]. cbn [attempts klog fst snd].
  repeat break_if; cbn [attempts klog fst snd app];
    rewrite <- ?app_assoc; reflexivity.
Qed.

(** A failed transaction returns a negative value; after a failed send the
    receive is not attempted. *)
Lemma failed_transaction_negative (bus : i2c_bus) (i : nat) :
  transaction_failed (bus i) -> reading_of_attempt bus i < 0.
Proof.
  unfold transaction_failed, reading_of_attempt, i2c_soil_drv_single_read_sensor,
    kbind, kret, i2c_master_send, i2c_master_recv, msleep, klog_event, EIO.
  cbn [attempts klog fst snd]. intros H.
  repeat break_if; cbn [fst snd]; lia.
Qed.

Lemma failed_send_events (bus : i2c_bus) (i : nat) :
  send_ret (bus i) <> 2 ->
  events_of_attempt bus i = [KSend I2C_TOUCH_BASE_ADDR I2C_TOUCH_OFFSET].
Proof.
  unfold events_of_attempt, i2c_soil_drv_single_read_sensor,
    kbind, kret, i2c_master_send, i2c_master_recv, msleep, klog_event.
  cbn [attempts klog fst snd]. intros H.
  repeat break_if; cbn [klog snd app]; try reflexivity; lia.
Qed.

(** One turn of the loop. *)
Lemma reread_loop_step (bus : i2c_bus) (n : nat) (reading : Z) (w : kworld) :
  I2C_READING_OUT_OF_BOUNDS reading = true ->
  reread_loop bus (S n) reading w =
  reread_loop bus n (reading_of_attempt bus (attempts w))
    (mk_kworld (S (attempts w))
       (klog w ++ KMsleep I2C_MSEC_DELAY :: events_of_attempt bus (attempts w))).
Proof.
  intros H. cbn [reread_loop]. rewrite H.
  unfold kbind at 1 2, msleep, klog_event.
  rewrite single_read_sensor_eq. cbn [attempts klog].
  rewrite <- app_assoc. reflexivity.
Qed.

Lemma reread_loop_stop (bus : i2c_bus) (n : nat) (reading : Z) (w : kworld) :
  I2C_READING_OUT_OF_BOUNDS reading = false ->
  reread_loop bus n reading w = (reading, w).
Proof. intros H. destruct n; cbn [reread_loop]; [|rewrite H]; reflexivity. Qed.

(** What the loop has done when it ends: it made [k <= n] re-reads, all but
    the last of them out of bounds like the reading it started from, and it
    stops before [n] only on a reading in bounds. *)
Lemma reread_loop_spec (bus : i2c_bus) (n : nat) :
  forall (reading : Z) (w : kworld),
  exists k : nat,
    (k <= n)%nat /\
    reread_loop bus n reading w =
      (match k with
       | O => reading
       | S k' => reading_of_attempt bus (attempts w + k')
       end,
       mk_kworld (attempts w + k) (klog w ++ reread_events bus (attempts w) k)) /\
    (k <> O -> I2C_READING_OUT_OF_BOUNDS reading = true) /\
    (forall j, (S j < k)%nat ->
       I2C_READING_OUT_OF_BOUNDS (reading_of_attempt bus (attempts w + j)) = true) /\
    ((k < n)%nat ->
       I2C_READING_OUT_OF_BOUNDS
         (match k with
          | O => reading
          | S k' => reading_of_attempt bus (attempts w + k')
          end) = false).
Proof.
  induction n as [|n IH]; intros reading w.
  - exists O. cbn [reread_loop]. unfold kret, reread_events. cbn.
    rewrite Nat.add_0_r, app_nil_r. destruct w; cbn.
    repeat split; try lia; try congruence.
  - destruct (bool_dec (I2C_READING_OUT_OF_BOUNDS reading) true) as [E|E];
      [| apply not_true_is_false in E].
    + rewrite (reread_loop_step bus n reading w E).
      destruct (IH (reading_of_attempt bus (attempts w))
                   (mk_kworld (S (attempts w))
                      (klog w ++ KMsleep I2C_MSEC_DELAY
                                 :: events_of_attempt bus (attempts w))))
        as (k & Hk & Heq & Hoob & Hall & Hlast).
      cbn [attempts klog] in *.
      exists (S k). split; [lia|]. split.
      * rewrite Heq. f_equal.
        -- destruct k as [|k']; [now rewrite Nat.add_0_r|].
           f_equal. lia.
        -- f_equal; [lia|]. unfold reread_events. cbn [seq map concat].
           rewrite <- !app_assoc. reflexivity.
      * split; [intros _; exact E|]. split.
        -- intros j Hj. destruct j as [|j].
           ++ rewrite Nat.add_0_r. apply Hoob. lia.
           ++ replace (attempts w + S j)%nat with (S (attempts w) + j)%nat by lia.
              apply Hall. lia.
        -- intros Hlt. assert (Hlt' : (k < n)%nat) by lia.
           specialize (Hlast Hlt'). destruct k as [|k'].
           ++ now rewrite Nat.add_0_r.
           ++ replace (attempts w + S k')%nat with (S (attempts w) + k')%nat by lia.
              exact Hlast.
    + exists O. rewrite (reread_loop_stop bus (S n) reading w E).
      unfold reread_events. cbn. rewrite Nat.add_0_r, app_nil_r.
      destruct w; cbn. repeat split; try lia; try congruence.
Qed.

(** The whole acquisition in one equation: [k+1] attempts were made, the
    result is the normalization of the last one, every attempt before the
    last was out of bounds, and fewer than the allowed number of re-reads
    means that the last attempt is in bounds. *)
Lemma read_sensor_spec (bus : i2c_bus) (w : kworld) :
  exists k : nat,
    (k <= I2C_MAX_REREADS)%nat /\
    i2c_soil_drv_read_sensor bus w =
      (normalize (reading_of_attempt bus (attempts w + k)),
       mk_kworld (attempts w + S k)
         (klog w ++ events_of_attempt bus (attempts w)
                 ++ reread_events bus (S (attempts w)) k)) /\
    (forall j, (j < k)%nat ->
       I2C_READING_OUT_OF_BOUNDS (reading_of_attempt bus (attempts w + j)) = true) /\
    ((k < I2C_MAX_REREADS)%nat ->
       I2C_READING_OUT_OF_BOUNDS (reading_of_attempt bus (attempts w + k)) = false).
Proof.
  unfold i2c_soil_drv_read_sensor. unfold kbind at 1.
  rewrite single_read_sensor_eq.
  destruct (reread_loop_spec bus I2C_MAX_REREADS
              (reading_of_attempt bus (attempts w))
              (mk_kworld (S (attempts w))
                 (klog w ++ events_of_attempt bus (attempts w))))
    as (k & Hk & Heq & Hoob & Hall & Hlast).
  cbn [attempts klog] in *.
  exists k. split; [exact Hk|]. split.
  - unfold kbind. rewrite Heq. unfold kret. f_equal.
    + destruct k as [|k']; [now rewrite Nat.add_0_r|].
      do 2 f_equal. lia.
    + f_equal; [lia|]. now rewrite <- app_assoc.
  - split.
    + intros j Hj. destruct j as [|j].
      * rewrite Nat.add_0_r. apply Hoob. lia.
      * replace (attempts w + S j)%nat with (S (attempts w) + j)%nat by lia.
        apply Hall. lia.
    + intros Hlt. specialize (Hlast Hlt). destruct k as [|k'].
      * now rewrite Nat.add_0_r.
      * replace (attempts w + S k')%nat with (S (attempts w) + k')%nat by lia.
        exact Hlast.
Qed.

(** C2.  When every attempt of an acquisition gives a reading that is out of
    bounds, the acquisition makes exactly [I2C_MAX_REREADS + 1] attempts, each
    re-read after the delay [I2C_MSEC_DELAY], and then returns [-EIO]: no
    reading is returned. *)
Theorem permanently_out_of_bounds_fails (bus : i2c_bus) (w : kworld) :
  (forall i, (attempts w <= i <= attempts w + I2C_MAX_REREADS)%nat ->
     I2C_READING_OUT_OF_BOUNDS (reading_of_attempt bus i) = true) ->
  i2c_soil_drv_read_sensor bus w =
  (- EIO,
   mk_kworld (attempts w + (I2C_MAX_REREADS + 1))
     (klog w ++ events_of_attempt bus (attempts w)
             ++ reread_events bus (S (attempts w)) I2C_MAX_REREADS)).
Proof.
  intros Hall.
  destruct (read_sensor_spec bus w) as (k & Hk & Heq & _ & Hlast).
  assert (Hk4 : k = I2C_MAX_REREADS).
  { destruct (Nat.eq_dec k I2C_MAX_REREADS) as [e|ne]; [exact e|].
    assert (Hlt : (k < I2C_MAX_REREADS)%nat) by lia.
    specialize (Hlast Hlt). rewrite Hall in Hlast by lia. discriminate. }
  subst k. rewrite Heq.
  rewrite (normalize_out_of_bounds _
             (Hall (attempts w + I2C_MAX_REREADS)%nat ltac:(lia))).
  reflexivity.
Qed.

Lemma permanently_out_of_bounds_fails_witness :
  i2c_soil_drv_read_sensor stuck_bus kworld0 =
  (- EIO,
   mk_kworld 5
     ([KSend 15 16; KMsleep 10; KRecv 2] ++
      [KMsleep 10; KSend 15 16; KMsleep 10; KRecv 2;
       KMsleep 10; KSend 15 16; KMsleep 10; KRecv 2;
       KMsleep 10; KSend 15 16; KMsleep 10; KRecv 2;
       KMsleep 10; KSend 15 16; KMsleep 10; KRecv 2])).
Proof.
  apply (permanently_out_of_bounds_fails stuck_bus kworld0).
  intros i _. reflexivity.
Defined.

(** C1, as the claim states it, fails: on [flaky_bus] the first transaction
    fails in the send, yet the acquisition goes on to a second transaction
    and returns the reading 96 instead of an error. *)
Lemma failed_transaction_not_fatal :
  transaction_failed (flaky_bus (attempts kworld0)) /\
  i2c_soil_drv_read_sensor flaky_bus kworld0 =
    (96, mk_kworld 2 [KSend 15 16; KMsleep 10; KSend 15 16; KMsleep 10; KRecv 2]) /\
  ~ (fst (i2c_soil_drv_read_sensor flaky_bus kworld0) < 0 /\
     attempts (snd (i2c_soil_drv_read_sensor flaky_bus kworld0)) = 1%nat).
Proof.
  split; [left; cbn; lia|]. split; [reflexivity|].
  intros [H _]. vm_compute in H. discriminate.
Qed.

(** C1, amended.  Take any transaction of an acquisition, the first one or
    a re-read: attempt [j] is made when the attempts before it were out of
    bounds.  When it fails it ends with a negative value (after a failed
    send the receive is not attempted), and the acquisition treats that
    value as a reading out of bounds: while re-reads remain ([j] is not the
    last allowed attempt) another transaction follows, after the delay; the
    acquisition returns the normalization of its last attempt, and it fails
    only when all the re-reads are used up, and then with [-EIO].  A
    failure of the last allowed attempt makes the acquisition fail with
    [-EIO]. *)
Theorem failed_transaction_is_reread (bus : i2c_bus) (w : kworld) (j : nat) :
  (j <= I2C_MAX_REREADS)%nat ->
  (forall i, (i < j)%nat ->
     I2C_READING_OUT_OF_BOUNDS (reading_of_attempt bus (attempts w + i)) = true) ->
  transaction_failed (bus (attempts w + j)%nat) ->
  reading_of_attempt bus (attempts w + j) < 0 /\
  (send_ret (bus (attempts w + j)%nat) <> 2 ->
     events_of_attempt bus (attempts w + j) =
     [KSend I2C_TOUCH_BASE_ADDR I2C_TOUCH_OFFSET]) /\
  exists k : nat,
    (j <= k <= I2C_MAX_REREADS)%nat /\
    ((j < I2C_MAX_REREADS)%nat -> (j < k)%nat) /\
    i2c_soil_drv_read_sensor bus w =
      (normalize (reading_of_attempt bus (attempts w + k)),
       mk_kworld (attempts w + S k)
         (klog w ++ events_of_attempt bus (attempts w)
                 ++ reread_events bus (S (attempts w)) k)) /\
    (forall i, (i < k)%nat ->
       I2C_READING_OUT_OF_BOUNDS (reading_of_attempt bus (attempts w + i)) = true) /\
    (fst (i2c_soil_drv_read_sensor bus w) < 0 ->
       k = I2C_MAX_REREADS /\ fst (i2c_soil_drv_read_sensor bus w) = - EIO) /\
    (j = I2C_MAX_REREADS -> fst (i2c_soil_drv_read_sensor bus w) = - EIO).
Proof.
  intros Hj Hbefore Hfail.
  pose proof (failed_transaction_negative bus (attempts w + j) Hfail) as Hneg.
  assert (Hoob : I2C_READING_OUT_OF_BOUNDS
                   (reading_of_attempt bus (attempts w + j)) = true)
    by (apply out_of_bounds_true; now left).
  split; [exact Hneg|]. split; [apply failed_send_events|].
  destruct (read_sensor_spec bus w) as (k & Hk & Heq & Hall & Hlast).
  assert (Hjk : (j <= k)%nat /\ ((j < I2C_MAX_REREADS)%nat -> (j < k)%nat)).
  { destruct (Nat.lt_trichotomy k j) as [Hlt | [e | Hgt]].
    - assert (Hlt' : (k < I2C_MAX_REREADS)%nat) by lia.
      specialize (Hlast Hlt'). rewrite Hbefore in Hlast by exact Hlt.
      discriminate.
    - subst k. split; [lia|]. intros Hlt'.
      specialize (Hlast Hlt'). congruence.
    - split; [lia | intros _; exact Hgt]. }
  exists k. split; [lia|]. split; [exact (proj2 Hjk)|].
  split; [exact Heq|]. split; [exact Hall|].
  rewrite Heq. cbn [fst]. split.
  - intros Hr. apply normalize_negative_iff in Hr. split.
    + destruct (Nat.eq_dec k I2C_MAX_REREADS) as [e|ne]; [exact e|].
      assert (Hlt : (k < I2C_MAX_REREADS)%nat) by lia.
      specialize (Hlast Hlt). congruence.
    + now apply normalize_out_of_bounds.
  - intros ->. assert (k = I2C_MAX_REREADS) as -> by lia.
    now apply normalize_out_of_bounds.
Qed.

Lemma failed_transaction_is_reread_witness :
  reading_of_attempt late_failure_bus (0 + 1) < 0 /\
  (send_ret (late_failure_bus (0 + 1)%nat) <> 2 ->
     events_of_attempt late_failure_bus (0 + 1) =
     [KSend I2C_TOUCH_BASE_ADDR I2C_TOUCH_OFFSET]) /\
  exists k : nat,
    (1 <= k <= I2C_MAX_REREADS)%nat /\
    ((1 < I2C_MAX_REREADS)%nat -> (1 < k)%nat) /\
    i2c_soil_drv_read_sensor late_failure_bus kworld0 =
      (normalize (reading_of_attempt late_failure_bus (0 + k)%nat),
       mk_kworld (0 + S k)%nat
         ([] ++ events_of_attempt late_failure_bus 0%nat
             ++ reread_events late_failure_bus 1%nat k)) /\
    (forall i, (i < k)%nat ->
       I2C_READING_OUT_OF_BOUNDS
         (reading_of_attempt late_failure_bus (0 + i)%nat) = true) /\
    (fst (i2c_soil_drv_read_sensor late_failure_bus kworld0) < 0 ->
       k = I2C_MAX_REREADS /\
       fst (i2c_soil_drv_read_sensor late_failure_bus kworld0) = - EIO) /\
    (1%nat = I2C_MAX_REREADS ->
       fst (i2c_soil_drv_read_sensor late_failure_bus kworld0) = - EIO).
Proof.
  apply (failed_transaction_is_reread late_failure_bus kworld0 1).
  - unfold I2C_MAX_REREADS. lia.
  - intros i Hi. assert (i = 0%nat) as -> by lia. reflexivity.
  - right. cbn. lia.
Defined.

(** ** The device: read *)

(** The value of an acquisition is [-EIO] or a byte. *)
Lemma read_sensor_value_range (bus : i2c_bus) (w : kworld) :
  fst (i2c_soil_drv_read_sensor bus w) = - EIO \/
  0 <= fst (i2c_soil_drv_read_sensor bus w) <= 255.
Proof.
  destruct (read_sensor_spec bus w) as (k & _ & Heq & _ & _).
  rewrite Heq. cbn [fst].
  destruct (I2C_READING_OUT_OF_BOUNDS
              (reading_of_attempt bus (attempts w + k))) eqn:E.
  - left. now apply normalize_out_of_bounds.
  - right. apply out_of_bounds_false in E.
    rewrite (normalize_in_bounds _ E). lia.
Qed.



(** The read of these inputs, computed: the acquisition makes its two
    transactions and the byte 96 replaces the first byte. *)
Example read_hardware_byte :
  i2c_soil_drv_read flaky_bus (mk_dev 0 42) [7; 8; 9] 3 kworld0 =
  ((1, [96; 8; 9]),
   mk_kworld 2 [KSend 15 16; KMsleep 10; KSend 15 16; KMsleep 10; KRecv 2]).
Proof. reflexivity. Qed.

(** ** The device: write *)

(** A command string has no NUL, so [strncmp] over its length is zero only
    when the buffer holds the command; a payload that does not agree with
    the command makes the comparison non-zero, whatever lies behind the
    copied bytes. *)
Lemma strncmp_disagree (c : list Z) :
  Forall (fun y => y <> 0) c ->
  forall (p : list Z) (m : nat) (rest : list Z),
    agrees p c = false ->
    (length c <= m \/ length p <= m)%nat ->
    strncmp (firstn m p ++ rest) c (length c) <> 0.
Proof.
  induction 1 as [|y c Hy Hc IH]; intros p m rest Hagree Hm.
  - destruct p; discriminate.
  - destruct p as [|x p]; [discriminate|].
    destruct m as [|m]; [cbn in Hm; lia|].
    cbn [firstn app length strncmp hd tl].
    cbn [agrees] in Hagree.
    destruct (Z.eqb_spec x y) as [e|ne].
    + subst x. destruct (Z.eqb_spec y 0) as [e0|_]; [contradiction|].
      apply IH; [exact Hagree | cbn [length] in Hm; lia].
    + lia.
Qed.

Lemma SIM_ON_CMD_no_nul : Forall (fun y => y <> 0) SIM_ON_CMD.
Proof. repeat constructor; discriminate. Qed.

Lemma SIM_OFF_CMD_no_nul : Forall (fun y => y <> 0) SIM_OFF_CMD.
Proof. repeat constructor; discriminate. Qed.

(** C5, as the claim states it, fails: the seven bytes "sim-on" and a
    newline are neither of the two commands, and writing them turns the
    simulation on. *)
Lemma write_command_with_newline_toggles :
  (2 <= length sim_on_newline)%nat /\
  sim_on_newline <> SIM_ON_CMD /\
  sim_on_newline <> SIM_OFF_CMD /\
  i2c_soil_drv_write (mk_dev 0 42) sim_on_newline (length sim_on_newline)
    (repeat 0 MAX_CMD_BUF_SIZE) = (7, mk_dev 1 42) /\
  snd (i2c_soil_drv_write (mk_dev 0 42) sim_on_newline (length sim_on_newline)
         (repeat 0 MAX_CMD_BUF_SIZE)) <> mk_dev 0 42.
Proof.
  repeat split; try (cbn; lia); try discriminate.
Qed.

(** C5, amended.  A write of two or more bytes whose payload agrees with
    neither command (it differs from "sim-on" and from "sim-off" at a
    position that it has in common with them, so that it neither begins with
    a command nor is the beginning of one) leaves the device as it was and
    returns its full length, whatever the command buffer held before. *)
Theorem write_unrecognized_ignored (dev : i2c_soil_dev) (payload stack : list Z) :
  (2 <= length payload)%nat ->
  agrees payload SIM_ON_CMD = false ->
  agrees payload SIM_OFF_CMD = false ->
  i2c_soil_drv_write dev payload (length payload) stack =
  (Z.of_nat (length payload), dev).
Proof.
  intros Hlen Hon Hoff. unfold i2c_soil_drv_write.
  destruct (Nat.eqb_spec 1 (length payload)) as [e|_]; [lia|].
  unfold copy_from_user.
  destruct (Nat.leb_spec (Nat.min MAX_CMD_BUF_SIZE (length payload))
              (length payload)) as [_|Hgt]; [|lia].
  cbn [negb Z.eqb].
  assert (Hm : forall c : list Z, (length c <= 7)%nat ->
             (length c <= Nat.min MAX_CMD_BUF_SIZE (length payload)
              \/ length payload <= Nat.min MAX_CMD_BUF_SIZE (length payload))%nat).
  { intros c Hc. unfold MAX_CMD_BUF_SIZE. lia. }
  pose proof (strncmp_disagree SIM_ON_CMD SIM_ON_CMD_no_nul payload _
                (skipn (Nat.min MAX_CMD_BUF_SIZE (length payload)) stack)
                Hon (Hm SIM_ON_CMD ltac:(cbn; lia))) as Hne_on.
  pose proof (strncmp_disagree SIM_OFF_CMD SIM_OFF_CMD_no_nul payload _
                (skipn (Nat.min MAX_CMD_BUF_SIZE (length payload)) stack)
                Hoff (Hm SIM_OFF_CMD ltac:(cbn; lia))) as Hne_off.
  unfold strlen.
  destruct (Z.eqb_spec (strncmp (firstn (Nat.min MAX_CMD_BUF_SIZE (length payload)) payload
                        ++ skipn (Nat.min MAX_CMD_BUF_SIZE (length payload)) stack)
                        SIM_ON_CMD (length SIM_ON_CMD)) 0) as [e|_];
    [contradiction|].
  destruct (Z.eqb_spec (strncmp (firstn (Nat.min MAX_CMD_BUF_SIZE (length payload)) payload
                        ++ skipn (Nat.min MAX_CMD_BUF_SIZE (length payload)) stack)
                        SIM_OFF_CMD (length SIM_OFF_CMD)) 0) as [e|_];
    [contradiction|].
  reflexivity.
Qed.

Lemma write_unrecognized_ignored_witness :
  i2c_soil_drv_write (mk_dev 0 42) [104; 105; 10] (length [104; 105; 10])
    (repeat 0 MAX_CMD_BUF_SIZE) =
  (Z.of_nat (length [104; 105; 10]), mk_dev 0 42).
Proof.
  apply (write_unrecognized_ignored (mk_dev 0 42) [104; 105; 10]
           (repeat 0 MAX_CMD_BUF_SIZE));
    [cbn; lia | reflexivity | reflexivity].
Defined.

(** A payload that is only the beginning of a command is outside the
    statement above: the comparison then reads bytes of the command buffer
    that the write did not fill, and the outcome depends on what they
    held. *)
Example write_short_prefix_depends_on_stack :
  snd (i2c_soil_drv_write (mk_dev 0 42) [115; 105] 2 (repeat 0 MAX_CMD_BUF_SIZE))
    = mk_dev 0 42 /\
  snd (i2c_soil_drv_write (mk_dev 0 42) [115; 105] 2
         ([0; 0] ++ [109; 45; 111; 110; 0; 0]))
    = mk_dev 1 42.
Proof. split; reflexivity. Qed.

End DriverProperties.

(* ===================================================================== *)
(** * Properties of the application *)
(* ===================================================================== *)

Section AppProperties.

Import App.
Local Open Scope prog_scope.

(** ** One step of gpio.c in any environment *)

Lemma sys_rv_eq {Ev : environment} (c : call) (w : world Ev) :
  sys_rv c w =
  (Ret (rv (fst (env_step Ev (est w) c))),
   mk_world (snd (env_step Ev (est w) c))
            (trace w ++ [(c, rv (fst (env_step Ev (est w) c)))])).
Proof.
  unfold sys_rv, bind, sys, ret. destruct (env_step Ev (est w) c). reflexivity.
Qed.

Lemma open_write_close_spec {Ev : environment} (path data : string) (w : world Ev) :
  exists (failed : bool) (w' : world Ev) (t : list (call * Z)),
    open_write_close_fails path data w = (Ret failed, w') /\
    trace w' = trace w ++ t /\
    owc_run path data failed t.
Proof.
  unfold open_write_close_fails, bind. rewrite sys_rv_eq.
  set (fd := rv (fst (env_step Ev (est w) (Open path)))).
  set (w1 := mk_world _ _).
  destruct (Z.eqb_spec fd (-1)) as [Hfd|Hfd].
  - exists true, w1, [(Open path, fd)]. unfold ret.
    split; [reflexivity|]. split; [reflexivity|].
    rewrite Hfd. constructor.
  - rewrite sys_rv_eq.
    set (n := rv (fst (env_step Ev (est w1) (Write fd data)))).
    set (w2 := mk_world _ _).
    destruct (Z.eqb_spec n (strlen data)) as [Hn|Hn]; cbn [negb].
    + rewrite sys_rv_eq.
      set (c := rv (fst (env_step Ev (est w2) (Close fd)))).
      set (w3 := mk_world _ _).
      exists (negb (c =? 0)), w3,
        [(Open path, fd); (Write fd data, n); (Close fd, c)].
      unfold ret. split; [reflexivity|]. split.
      * subst w3 w2 w1. cbn [trace]. rewrite <- !app_assoc. reflexivity.
      * rewrite Hn. destruct (Z.eqb_spec c 0) as [Hc|Hc]; cbn [negb].
        -- rewrite Hc. now constructor.
        -- now constructor.
    + exists true, w2, [(Open path, fd); (Write fd data, n)].
      unfold ret. split; [reflexivity|]. split.
      * subst w2 w1. cbn [trace]. rewrite <- !app_assoc. reflexivity.
      * now constructor.
Qed.

(** ** [gpio_disable] in any environment *)

(** Case analysis on the position of a call in a trace that is known. *)
Ltac nth_error_cases :=
  repeat match goal with
         | H : nth_error (_ :: _) ?i = Some _ |- _ =>
             is_var i; destruct i; cbn [nth_error firstn length] in *
         | H : nth_error [] ?i = Some _ |- _ =>
             is_var i; destruct i; discriminate H
         end.

Lemma gpio_disable_spec {Ev : environment} (w : world Ev) :
  exists (res : Z) (w' : world Ev) (t : list (call * Z)),
    gpio_disable w = (Ret res, w') /\
    trace w' = trace w ++ t /\
    ((res = GPIO_ERROR /\ owc_run GPIO_DIRECTION GPIO_INPUT true t) \/
     (exists t1 t2 f2,
        t = t1 ++ t2 /\
        owc_run GPIO_DIRECTION GPIO_INPUT false t1 /\
        owc_run GPIO_UNEXPORT GPIO_PIN f2 t2 /\
        res = if f2 then GPIO_ERROR else GPIO_OK)).
Proof.
  unfold gpio_disable, bind.
  destruct (open_write_close_spec GPIO_DIRECTION GPIO_INPUT w)
    as (f1 & w1 & t1 & E1 & T1 & R1).
  rewrite E1. destruct f1.
  - exists GPIO_ERROR, w1, t1. unfold ret. auto.
  - destruct (open_write_close_spec GPIO_UNEXPORT GPIO_PIN w1)
      as (f2 & w2 & t2 & E2 & T2 & R2).
    rewrite E2.
    exists (if f2 then GPIO_ERROR else GPIO_OK), w2, (t1 ++ t2).
    split; [destruct f2; reflexivity|]. split.
    + rewrite T2, T1, app_assoc. reflexivity.
    + right. exists t1, t2, f2. auto.
Qed.

Lemma gpio_paths_distinct :
  GPIO_DIRECTION <> GPIO_UNEXPORT /\ GPIO_INPUT <> GPIO_PIN.
Proof. split; discriminate. Qed.

(** C9.  [gpio_disable] makes the direction step and then the unexport
    step, each one an open, a write and a close that stop at the first call
    that fails: it opens the direction file, writes "in" to it when the
    open succeeded, closes it when the write transferred all its bytes, and
    only after this complete direction step opens the unexport file, writes
    the pin number to it and closes it.  A write that does not transfer its
    full count is the last call made, and [gpio_disable] then returns
    [GPIO_ERROR]; it returns [GPIO_OK] exactly after both complete steps. *)
Theorem gpio_disable_direction_before_unexport {Ev : environment} (w : world Ev) :
  exists (res : Z) (w' : world Ev) (t : list (call * Z)),
    gpio_disable w = (Ret res, w') /\
    trace w' = trace w ++ t /\
    ((res = GPIO_ERROR /\ owc_run GPIO_DIRECTION GPIO_INPUT true t) \/
     (exists t1 t2 f2,
        t = t1 ++ t2 /\
        owc_run GPIO_DIRECTION GPIO_INPUT false t1 /\
        owc_run GPIO_UNEXPORT GPIO_PIN f2 t2 /\
        res = if f2 then GPIO_ERROR else GPIO_OK)) /\
    (res = GPIO_OK \/ res = GPIO_ERROR) /\
    (exists fd, nth_error t 0 = Some (Open GPIO_DIRECTION, fd)) /\
    (forall fd, nth_error t 0 = Some (Open GPIO_DIRECTION, fd) -> fd <> -1 ->
       exists v, nth_error t 1 = Some (Write fd GPIO_INPUT, v)) /\
    (forall fd, nth_error t 1 = Some (Write fd GPIO_INPUT, strlen GPIO_INPUT) ->
       exists c, nth_error t 2 = Some (Close fd, c)) /\
    (forall fd, nth_error t 2 = Some (Close fd, 0) ->
       exists fd2, nth_error t 3 = Some (Open GPIO_UNEXPORT, fd2)) /\
    (forall fd2, nth_error t 3 = Some (Open GPIO_UNEXPORT, fd2) -> fd2 <> -1 ->
       exists v, nth_error t 4 = Some (Write fd2 GPIO_PIN, v)) /\
    (forall fd2, nth_error t 4 = Some (Write fd2 GPIO_PIN, strlen GPIO_PIN) ->
       exists c, nth_error t 5 = Some (Close fd2, c)) /\
    (forall fd2, nth_error t 5 = Some (Close fd2, 0) -> res = GPIO_OK) /\
    (forall i fd,
       nth_error t i = Some (Open GPIO_UNEXPORT, fd) ->
       exists fd1, firstn i t = owc_steps GPIO_DIRECTION GPIO_INPUT fd1) /\
    (forall i fd v,
       nth_error t i = Some (Write fd GPIO_PIN, v) ->
       exists fd1,
         firstn i t =
         owc_steps GPIO_DIRECTION GPIO_INPUT fd1 ++ [(Open GPIO_UNEXPORT, fd)]) /\
    (forall i fd data v,
       nth_error t i = Some (Write fd data, v) ->
       v <> strlen data ->
       length t = S i /\ res = GPIO_ERROR) /\
    (res = GPIO_OK ->
       exists fd1 fd2,
         t = owc_steps GPIO_DIRECTION GPIO_INPUT fd1
             ++ owc_steps GPIO_UNEXPORT GPIO_PIN fd2).
Proof.
  destruct (gpio_disable_spec w) as (res & w' & t & E & T & R).
  destruct gpio_paths_distinct as [Hpath Hdata].
  exists res, w', t. split; [exact E|]. split; [exact T|]. split; [exact R|].
  destruct R as [[Hres R1] | (t1 & t2 & f2 & Ht & R1 & R2 & Hres)].
  - subst res. inversion R1; subst; clear R1.
    all: unfold owc_steps in *; cbn [app] in *.
    all: repeat match goal with |- _ /\ _ => split end.
    all: intros; cbn [nth_error] in *; nth_error_cases.
    all: try (now right); try congruence; try discriminate.
    all: repeat match goal with
                | H : Some _ = Some _ |- _ => injection H as ?; subst
                end.
    all: try congruence.
    all: eexists; reflexivity.
  - inversion R1; subst; clear R1.
    inversion R2; subst; clear R2.
    all: unfold owc_steps in *; cbn [app] in *.
    all: repeat match goal with |- _ /\ _ => split end.
    all: intros; cbn [nth_error] in *; nth_error_cases.
    all: try (now left); try (now right).
    all: try congruence; try discriminate.
    all: repeat match goal with
                | H : Some _ = Some _ |- _ => injection H as ?; subst
                end.
    all: try congruence.
    all: try (eexists; reflexivity).
    all: try (do 2 eexists; reflexivity).
Qed.

(** ** The control loop when the sensor read fails *)

Lemma sys_eq {Ev : environment} (c : call) (w : world Ev) :
  sys c w =
  (Ret (fst (env_step Ev (est w) c)),
   mk_world (snd (env_step Ev (est w) c))
            (trace w ++ [(c, rv (fst (env_step Ev (est w) c)))])).
Proof. unfold sys. destruct (env_step Ev (est w) c). reflexivity. Qed.

Lemma owc_run_no_pump (path data : string) (f : bool) (t : list (call * Z)) :
  owc_run path data f t ->
  String.eqb path GPIO_VALUE = false ->
  String.eqb data GPIO_ON || String.eqb data GPIO_OFF = false ->
  Forall (fun e => is_pump_call (fst e) = false) t.
Proof.
  intros R Hp Hd. inversion R; subst; unfold owc_steps;
    repeat constructor; assumption.
Qed.

Lemma gpio_disable_no_pump {Ev : environment} (w w' : world Ev) (res : Z)
    (t : list (call * Z)) :
  gpio_disable w = (Ret res, w') ->
  trace w' = trace w ++ t ->
  Forall (fun e => is_pump_call (fst e) = false) t.
Proof.
  intros E T.
  destruct (gpio_disable_spec w) as (res' & w'' & t' & E' & T' & R).
  rewrite E in E'. injection E' as <- <-.
  rewrite T in T'. apply app_inv_head in T'. subst t'.
  destruct R as [[_ R1] | (t1 & t2 & f2 & -> & R1 & R2 & _)].
  - now apply (owc_run_no_pump _ _ _ _ R1).
  - apply Forall_app. split.
    + now apply (owc_run_no_pump _ _ _ _ R1).
    + now apply (owc_run_no_pump _ _ _ _ R2).
Qed.

(** C7.  When the read of the sensor does not return 1, the turn of the loop
    reports the error, runs [gpio_disable] and drops its result, and exits
    with [EXIT_FAILURE]: the loop does not go on, and no call that drives or
    paces the pump is made after the failed read. *)
Theorem read_failure_is_fatal {Ev : environment} (cfg : config)
    (soil_drv_fd : Z) (w : world Ev) :
  rv (fst (env_step Ev (est w) (Read soil_drv_fd 1))) <> 1 ->
  exists (w1 w' : world Ev) (v p res : Z) (t : list (call * Z)),
    loop_body cfg soil_drv_fd w = (Exit EXIT_FAILURE, w') /\
    (forall n, main_loop (S n) cfg soil_drv_fd w = (Exit EXIT_FAILURE, w')) /\
    v <> 1 /\
    trace w1 = trace w ++ [(Read soil_drv_fd 1, v); (Perror, p)] /\
    gpio_disable w1 = (Ret res, w') /\
    trace w' = trace w1 ++ t /\
    Forall (fun e => is_pump_call (fst e) = false) t.
Proof.
  intros Hrv.
  assert (Hbody : exists (w1 w' : world Ev) (v p res : Z) (t : list (call * Z)),
             loop_body cfg soil_drv_fd w = (Exit EXIT_FAILURE, w') /\
             v <> 1 /\
             trace w1 = trace w ++ [(Read soil_drv_fd 1, v); (Perror, p)] /\
             gpio_disable w1 = (Ret res, w') /\
             trace w' = trace w1 ++ t).
  { unfold loop_body, bind at 1. rewrite sys_eq.
    set (r := fst (env_step Ev (est w) (Read soil_drv_fd 1))) in *.
    set (w0 := mk_world _ _).
    destruct (Z.eqb_spec (rv r) 1) as [e|_]; [contradiction|]. cbn [negb].
    unfold bind at 1, perror, bind at 1. rewrite sys_eq. unfold ret.
    set (p := rv (fst (env_step Ev (est w0) Perror))).
    set (w1 := mk_world _ _).
    destruct (gpio_disable_spec w1) as (res & w' & t & E & T & _).
    exists w1, w', (rv r), p, res, t.
    unfold bind, exit. rewrite E.
    repeat split; try assumption.
    subst w1 w0. cbn [trace]. rewrite <- app_assoc. reflexivity. }
  destruct Hbody as (w1 & w' & v & p & res & t & Hb & Hv & T1 & E & T).
  exists w1, w', v, p, res, t.
  repeat split; try assumption.
  - intros n. cbn [main_loop]. unfold bind. rewrite Hb. reflexivity.
  - exact (gpio_disable_no_pump w1 w' res t E T).
Qed.

Lemma read_failure_is_fatal_witness :
  exists (w1 w' : world sysfs_env) (v p res : Z) (t : list (call * Z)),
    loop_body default_config 3 (mk_world (Ev := sysfs_env) sensor_gone [])
      = (Exit EXIT_FAILURE, w') /\
    (forall n, main_loop (S n) default_config 3
                 (mk_world (Ev := sysfs_env) sensor_gone [])
               = (Exit EXIT_FAILURE, w')) /\
    v <> 1 /\
    trace w1 = [] ++ [(Read 3 1, v); (Perror, p)] /\
    gpio_disable w1 = (Ret res, w') /\
    trace w' = trace w1 ++ t /\
    Forall (fun e => is_pump_call (fst e) = false) t.
Proof.
  apply (read_failure_is_fatal default_config 3
           (mk_world (Ev := sysfs_env) sensor_gone [])).
  vm_compute. discriminate.
Defined.

(** ** The steps of gpio.c on the sysfs files *)

(** A step whose three calls succeed, and a step whose open fails, in any
    environment. *)
Lemma owc_success {Ev : environment} (path data : string) (w : world Ev)
    (fd d1 d2 d3 : Z) (e1 e2 e3 : env_state Ev) :
  env_step Ev (est w) (Open path) = (mk_reply fd d1, e1) ->
  fd <> -1 ->
  env_step Ev e1 (Write fd data) = (mk_reply (strlen data) d2, e2) ->
  env_step Ev e2 (Close fd) = (mk_reply 0 d3, e3) ->
  open_write_close_fails path data w =
  (Ret false, mk_world e3 (trace w ++ owc_steps path data fd)).
Proof.
  intros H1 Hfd H2 H3.
  unfold open_write_close_fails, bind. rewrite sys_rv_eq, H1. cbn [fst snd rv].
  destruct (Z.eqb_spec fd (-1)) as [e|_]; [contradiction|].
  rewrite sys_rv_eq. cbn [est trace]. rewrite H2. cbn [fst snd rv].
  rewrite Z.eqb_refl. cbn [negb].
  rewrite sys_rv_eq. cbn [est trace]. rewrite H3. cbn [fst snd rv].
  unfold ret, owc_steps. cbn [Z.eqb negb]. rewrite <- !app_assoc. reflexivity.
Qed.

Lemma owc_open_fails {Ev : environment} (path data : string) (w : world Ev)
    (d1 : Z) (e1 : env_state Ev) :
  env_step Ev (est w) (Open path) = (mk_reply (-1) d1, e1) ->
  open_write_close_fails path data w =
  (Ret true, mk_world e1 (trace w ++ [(Open path, -1)])).
Proof.
  intros H1.
  unfold open_write_close_fails, bind. rewrite sys_rv_eq, H1. reflexivity.
Qed.

Lemma sysfs_open_present (st : sysfs) (path : string) (f : file) :
  file_of_path path = Some f ->
  file_present st f = true ->
  sysfs_open st path =
  (mk_reply (Z.of_nat (next_fd st)) 0,
   mk_sysfs (exported st) (direction_out st) (value_high st)
            ((Z.of_nat (next_fd st), f) :: fds st) (S (next_fd st))
            (readings st) (pin_log st)).
Proof. intros Hf Hp. unfold sysfs_open. now rewrite Hf, Hp. Qed.

Lemma sysfs_close_top (ex out hi : bool) (fd : Z) (f : file)
    (l : list (Z * file)) (n : nat) (rd : list Z) (lg : list pin_event) :
  sysfs_close (mk_sysfs ex out hi ((fd, f) :: l) n rd lg) fd =
  (mk_reply 0 0, mk_sysfs ex out hi l n rd lg).
Proof.
  unfold sysfs_close. cbn [fds fd_lookup fd_remove]. now rewrite Z.eqb_refl.
Qed.

(** Solves the three calls of a step on the sysfs state: the file is
    present, the write is accepted, the descriptor is closed. *)
Ltac sysfs_step_ok Hex Hout :=
  eapply owc_success;
  [ cbn [est env_step sysfs_env sysfs_step];
    apply sysfs_open_present; [reflexivity | cbn [file_present]; try exact Hex; reflexivity]
  | lia
  | cbn [env_step sysfs_env sysfs_step]; unfold sysfs_write;
    cbn [fds fd_lookup]; rewrite Z.eqb_refl;
    cbn [exported direction_out value_high next_fd readings pin_log fds];
    rewrite ?Hex, ?Hout; reflexivity
  | cbn [env_step sysfs_env sysfs_step]; apply sysfs_close_top ].

Lemma sysfs_direction_input (st : sysfs) (t : list (call * Z)) :
  exported st = true ->
  open_write_close_fails GPIO_DIRECTION GPIO_INPUT (mk_world (Ev := sysfs_env) st t) =
  (Ret false,
   mk_world (Ev := sysfs_env)
     (mk_sysfs true false (value_high st) (fds st) (S (next_fd st))
               (readings st) (pin_log st ++ [Release]))
     (t ++ owc_steps GPIO_DIRECTION GPIO_INPUT (Z.of_nat (next_fd st)))).
Proof. intros Hex. sysfs_step_ok Hex Hex. Qed.

Lemma sysfs_unexport (st : sysfs) (t : list (call * Z)) :
  exported st = true ->
  open_write_close_fails GPIO_UNEXPORT GPIO_PIN (mk_world (Ev := sysfs_env) st t) =
  (Ret false,
   mk_world (Ev := sysfs_env)
     (mk_sysfs false (direction_out st) (value_high st) (fds st)
               (S (next_fd st)) (readings st) (pin_log st))
     (t ++ owc_steps GPIO_UNEXPORT GPIO_PIN (Z.of_nat (next_fd st)))).
Proof. intros Hex. sysfs_step_ok Hex Hex. Qed.

Lemma sysfs_value (level : bool) (st : sysfs) (t : list (call * Z)) :
  exported st = true ->
  direction_out st = true ->
  open_write_close_fails GPIO_VALUE (if level then GPIO_ON else GPIO_OFF)
    (mk_world (Ev := sysfs_env) st t) =
  (Ret false,
   mk_world (Ev := sysfs_env)
     (mk_sysfs true true level (fds st) (S (next_fd st))
               (readings st) (pin_log st ++ [Drive level]))
     (t ++ owc_steps GPIO_VALUE (if level then GPIO_ON else GPIO_OFF)
             (Z.of_nat (next_fd st)))).
Proof.
  intros Hex Hout. destruct level; sysfs_step_ok Hex Hout.
Qed.

Lemma sysfs_direction_absent (st : sysfs) (t : list (call * Z)) (data : string) :
  exported st = false ->
  open_write_close_fails GPIO_DIRECTION data (mk_world (Ev := sysfs_env) st t) =
  (Ret true,
   mk_world (Ev := sysfs_env) st (t ++ [(Open GPIO_DIRECTION, -1)])).
Proof.
  intros Hex. eapply owc_open_fails.
  cbn [est env_step sysfs_env sysfs_step]. unfold sysfs_open.
  change (file_of_path GPIO_DIRECTION) with (Some FDirection).
  cbn [file_present]. rewrite Hex. reflexivity.
Qed.

Lemma bind_ret_eq {Ev : environment} {A B : Type} (m : prog Ev A)
    (f : A -> prog Ev B) (w w' : world Ev) (a : A) :
  m w = (Ret a, w') -> bind m f w = f a w'.
Proof. intros H. unfold bind. now rewrite H. Qed.

(** [gpio_disable] on the sysfs files: it succeeds exactly when the pin is
    exported, and the pin is not exported afterwards in either case. *)
Lemma sysfs_gpio_disable (st : sysfs) (t : list (call * Z)) :
  gpio_disable (mk_world (Ev := sysfs_env) st t) =
  if exported st then
    (Ret GPIO_OK,
     mk_world (Ev := sysfs_env)
       (mk_sysfs false false (value_high st) (fds st) (S (S (next_fd st)))
                 (readings st) (pin_log st ++ [Release]))
       ((t ++ owc_steps GPIO_DIRECTION GPIO_INPUT (Z.of_nat (next_fd st)))
          ++ owc_steps GPIO_UNEXPORT GPIO_PIN (Z.of_nat (S (next_fd st)))))
  else
    (Ret GPIO_ERROR,
     mk_world (Ev := sysfs_env) st (t ++ [(Open GPIO_DIRECTION, -1)])).
Proof.
  unfold gpio_disable. destruct (exported st) eqn:Hex.
  - erewrite bind_ret_eq by (apply sysfs_direction_input; exact Hex).
    cbn match.
    erewrite bind_ret_eq by (apply sysfs_unexport; reflexivity).
    reflexivity.
  - erewrite bind_ret_eq by (apply sysfs_direction_absent; exact Hex).
    reflexivity.
Qed.

Lemma syslog_eq {Ev : environment} (m : message) (w : world Ev) :
  syslog m w =
  (Ret tt,
   mk_world (snd (env_step Ev (est w) (Syslog m)))
            (trace w ++ [(Syslog m, rv (fst (env_step Ev (est w) (Syslog m))))])).
Proof. unfold syslog, bind. rewrite sys_eq. reflexivity. Qed.

(** C8.  On SIGINT or SIGTERM the handler logs, runs [gpio_disable] and
    drops its result, and exits with [EXIT_SUCCESS], in any environment.  On
    the sysfs files the pin is not exported when the process exits, in
    whatever state the signal found it; if it was exported, the handler has
    released the drive and then unexported the pin. *)
Theorem terminal_signal_unexports (signal : Z) :
  signal = SIGINT \/ signal = SIGTERM ->
  (forall (Ev : environment) (w : world Ev),
     exists (res : Z) (w' : world Ev),
       gpio_disable (snd (syslog (MsgCaught signal) w)) = (Ret res, w') /\
       signal_handler signal w = (Exit EXIT_SUCCESS, w')) /\
  (forall (st : sysfs) (t : list (call * Z)),
     let r := signal_handler signal (mk_world (Ev := sysfs_env) st t) in
     fst r = Exit EXIT_SUCCESS /\
     exported (est (snd r)) = false /\
     (exported st = true ->
        pin_log (est (snd r)) = pin_log st ++ [Release] /\
        trace (snd r) =
          ((t ++ [(Syslog (MsgCaught signal), 0)])
             ++ owc_steps GPIO_DIRECTION GPIO_INPUT (Z.of_nat (next_fd st)))
             ++ owc_steps GPIO_UNEXPORT GPIO_PIN (Z.of_nat (S (next_fd st))))).
Proof.
  intros Hsig.
  assert (Husr : (SIGUSR1 =? signal) = false).
  { apply Z.eqb_neq. unfold SIGUSR1. destruct Hsig; subst; discriminate. }
  split.
  - intros Ev w. unfold signal_handler. rewrite Husr.
    destruct (gpio_disable_spec (snd (syslog (MsgCaught signal) w)))
      as (res & w' & t & E & _).
    exists res, w'. split; [exact E|].
    unfold bind at 1. rewrite syslog_eq in *. cbn [snd] in E.
    unfold bind, exit. rewrite E. reflexivity.
  - intros st t r.
    assert (E : r = (Exit EXIT_SUCCESS,
                     snd (gpio_disable
                            (mk_world (Ev := sysfs_env) st
                               (t ++ [(Syslog (MsgCaught signal), 0)]))))).
    { subst r. unfold signal_handler. rewrite Husr.
      unfold bind at 1. rewrite syslog_eq.
      cbn [est trace env_step sysfs_env sysfs_step fst snd rv].
      unfold bind, exit. rewrite sysfs_gpio_disable.
      destruct (exported st); reflexivity. }
    rewrite E, sysfs_gpio_disable.
    destruct (exported st) eqn:Hex; cbn [fst snd est trace exported pin_log].
    + repeat split.
    + repeat split; [exact Hex | discriminate | discriminate].
Qed.

Lemma terminal_signal_unexports_witness :
  (forall (Ev : environment) (w : world Ev),
     exists (res : Z) (w' : world Ev),
       gpio_disable (snd (syslog (MsgCaught SIGTERM) w)) = (Ret res, w') /\
       signal_handler SIGTERM w = (Exit EXIT_SUCCESS, w')) /\
  (forall (st : sysfs) (t : list (call * Z)),
     let r := signal_handler SIGTERM (mk_world (Ev := sysfs_env) st t) in
     fst r = Exit EXIT_SUCCESS /\
     exported (est (snd r)) = false /\
     (exported st = true ->
        pin_log (est (snd r)) = pin_log st ++ [Release] /\
        trace (snd r) =
          ((t ++ [(Syslog (MsgCaught SIGTERM), 0)])
             ++ owc_steps GPIO_DIRECTION GPIO_INPUT (Z.of_nat (next_fd st)))
             ++ owc_steps GPIO_UNEXPORT GPIO_PIN (Z.of_nat (S (next_fd st))))).
Proof.
  apply (terminal_signal_unexports SIGTERM). right. reflexivity.
Defined.

(** ** The control loop on the sysfs files *)

Lemma sysfs_report (cfg : config) (m : message) (st : sysfs)
    (t : list (call * Z)) :
  exists t', report cfg m (mk_world (Ev := sysfs_env) st t)
             = (Ret tt, mk_world (Ev := sysfs_env) st t').
Proof.
  unfold report, bind. rewrite syslog_eq.
  cbn [est trace env_step sysfs_env sysfs_step fst snd rv].
  destruct (mqtt_broker_uri cfg).
  - unfold mqtt_publish_msg, bind. rewrite sys_rv_eq.
    cbn [est trace env_step sysfs_env sysfs_step fst snd rv].
    eexists. reflexivity.
  - eexists. reflexivity.
Qed.

Lemma sysfs_sleep (seconds : Z) (st : sysfs) (t : list (call * Z)) :
  0 <= seconds < 2 ^ 32 ->
  sleep seconds (mk_world (Ev := sysfs_env) st t) =
  (Ret tt,
   mk_world (Ev := sysfs_env)
     (mk_sysfs (exported st) (direction_out st) (value_high st) (fds st)
               (next_fd st) (readings st) (pin_log st ++ [Elapsed seconds]))
     (t ++ [(Sleep seconds, 0)])).
Proof.
  intros H. unfold sleep, bind. rewrite sys_eq. unfold to_unsigned.
  rewrite Z.mod_small by exact H. reflexivity.
Qed.

Lemma sysfs_gpio_level (level : bool) (st : sysfs) (t : list (call * Z)) :
  exported st = true ->
  direction_out st = true ->
  (if level then gpio_on else gpio_off) (mk_world (Ev := sysfs_env) st t) =
  (Ret GPIO_OK,
   mk_world (Ev := sysfs_env)
     (mk_sysfs true true level (fds st) (S (next_fd st))
               (readings st) (pin_log st ++ [Drive level]))
     (t ++ owc_steps GPIO_VALUE (if level then GPIO_ON else GPIO_OFF)
             (Z.of_nat (next_fd st)))).
Proof.
  intros Hex Hout.
  pose proof (sysfs_value level st t Hex Hout) as E.
  destruct level; unfold gpio_on, gpio_off;
    erewrite bind_ret_eq by exact E; reflexivity.
Qed.

Lemma sysfs_read_reading (fd b : Z) (rest : list Z) (st : sysfs)
    (t : list (call * Z)) :
  fd_lookup fd (fds st) = Some FSoilDev ->
  readings st = b :: rest ->
  sys (Read fd 1) (mk_world (Ev := sysfs_env) st t) =
  (Ret (mk_reply 1 b),
   mk_world (Ev := sysfs_env)
     (mk_sysfs (exported st) (direction_out st) (value_high st) (fds st)
               (next_fd st) rest (pin_log st))
     (t ++ [(Read fd 1, 1)])).
Proof.
  intros Hfd Hrd. rewrite sys_eq.
  cbn [est trace env_step sysfs_env sysfs_step]. unfold sysfs_read.
  rewrite Hfd, Hrd. reflexivity.
Qed.

(** Runs a [report] that comes next in the program. *)
Ltac step_report :=
  match goal with
  | |- context [bind (report ?cfg ?m) _ {| est := ?s; trace := ?tr |}] =>
      let t' := fresh "t" in
      let E := fresh "E" in
      destruct (sysfs_report cfg m s tr) as [t' E];
      rewrite (bind_ret_eq _ _ _ _ _ E)
  end.

(** The branch of the loop that runs the pump, while the pin is enabled. *)
Lemma sysfs_pump_run (cfg : config) (st : sysfs) (t : list (call * Z)) :
  exported st = true ->
  direction_out st = true ->
  0 <= pump_time cfg < 2 ^ 32 ->
  exists t' : list (call * Z),
    (e <- gpio_on ;;
     if e =? GPIO_ERROR then
       perror ;; _ <- gpio_disable ;; exit EXIT_FAILURE
     else
       report cfg (MsgPumpOn (pump_time cfg)) ;;
       sleep (pump_time cfg) ;;
       e <- gpio_off ;;
       if e =? GPIO_ERROR then
         perror ;; _ <- gpio_disable ;; exit EXIT_FAILURE
       else
         report cfg MsgPumpOff) (mk_world (Ev := sysfs_env) st t) =
    (Ret tt,
     mk_world (Ev := sysfs_env)
       (mk_sysfs true true false (fds st) (S (S (next_fd st))) (readings st)
          (pin_log st ++ [Drive true; Elapsed (pump_time cfg); Drive false]))
       t').
Proof.
  intros Hex Hout Hpump.
  rewrite (bind_ret_eq _ _ _ _ _ (sysfs_gpio_level true st t Hex Hout)).
  cbn [GPIO_OK GPIO_ERROR Z.eqb].
  step_report.
  erewrite bind_ret_eq by (apply sysfs_sleep; exact Hpump).
  erewrite bind_ret_eq by (apply (sysfs_gpio_level false); reflexivity).
  cbn [GPIO_OK GPIO_ERROR Z.eqb].
  match goal with
  | |- context [report ?c ?m {| est := ?s; trace := ?tr |}] =>
      destruct (sysfs_report c m s tr) as [t3 E3]
  end.
  exists t3. rewrite E3.
  cbn [exported direction_out value_high fds next_fd readings pin_log].
  rewrite <- !app_assoc. reflexivity.
Qed.

(** One turn of the loop while the pin is enabled and the sensor gives the
    byte [b]. *)
Lemma sysfs_loop_body (cfg : config) (soil_drv_fd : Z) (st : sysfs)
    (t : list (call * Z)) (b : Z) (rest : list Z) :
  exported st = true ->
  direction_out st = true ->
  fd_lookup soil_drv_fd (fds st) = Some FSoilDev ->
  readings st = b :: rest ->
  0 <= b < 256 ->
  0 <= pump_time cfg < 2 ^ 32 ->
  0 <= sleep_time cfg < 2 ^ 32 ->
  exists (hi : bool) (n : nat) (t' : list (call * Z)),
    loop_body cfg soil_drv_fd (mk_world (Ev := sysfs_env) st t) =
    (Ret tt,
     mk_world (Ev := sysfs_env)
       (mk_sysfs true true hi (fds st) n rest (pin_log st ++ pump_cycle cfg b))
       t').
Proof.
  intros Hex Hout Hfd Hrd Hb Hpump Hsleep.
  unfold loop_body, pump_cycle.
  erewrite bind_ret_eq by (apply sysfs_read_reading; eassumption).
  cbn [rv rdata Z.eqb Pos.eqb negb]. rewrite (Z.mod_small b 256) by lia.
  step_report.
  destruct (b <? target cfg).
  - (* the pump runs *)
    match goal with
    | |- context [bind _ _ {| est := ?s; trace := ?tr |}] =>
        destruct (sysfs_pump_run cfg s tr Hex Hout Hpump) as [tp Ep]
    end.
    rewrite (bind_ret_eq _ _ _ _ _ Ep).
    step_report.
    rewrite sysfs_sleep by exact Hsleep.
    cbn [exported direction_out value_high fds next_fd readings pin_log].
    do 3 eexists. rewrite <- !app_assoc. reflexivity.
  - (* the pump is left alone *)
    erewrite bind_ret_eq by reflexivity.
    step_report.
    rewrite sysfs_sleep by exact Hsleep.
    cbn [exported direction_out value_high fds next_fd readings pin_log].
    rewrite Hex, Hout.
    do 3 eexists. reflexivity.
Qed.

(** C6.  While the pin is enabled and the sensor gives the bytes [bs], one
    reading for each turn, the turns of the loop do at the pin, in order and
    for each reading: when the reading is below the target, drive high,
    sleep [pump_time], drive low; when it is not below the target, nothing;
    and then, in both cases, sleep [sleep_time].  With the target 128 and the
    readings 100 and 150, the pump runs in the first turn and is not touched
    in the second. *)
Theorem pump_runs_iff_below_target (cfg : config) (soil_drv_fd : Z)
    (bs rest : list Z) (st : sysfs) (t : list (call * Z)) :
  exported st = true ->
  direction_out st = true ->
  fd_lookup soil_drv_fd (fds st) = Some FSoilDev ->
  readings st = bs ++ rest ->
  Forall (fun b => 0 <= b < 256) bs ->
  0 <= pump_time cfg < 2 ^ 32 ->
  0 <= sleep_time cfg < 2 ^ 32 ->
  exists (hi : bool) (n : nat) (t' : list (call * Z)),
    main_loop (length bs) cfg soil_drv_fd (mk_world (Ev := sysfs_env) st t) =
    (Ret tt,
     mk_world (Ev := sysfs_env)
       (mk_sysfs true true hi (fds st) n rest
          (pin_log st ++ flat_map (pump_cycle cfg) bs))
       t').
Proof.
  intros Hex Hout Hfd Hrd Hbs Hpump Hsleep.
  revert st t Hex Hout Hfd Hrd.
  induction Hbs as [|b bs Hb Hbs IH]; intros st t Hex Hout Hfd Hrd.
  - exists (value_high st), (next_fd st), t.
    cbn [length main_loop flat_map]. unfold ret. rewrite app_nil_r.
    destruct st; cbn in *; subst; reflexivity.
  - cbn [length main_loop flat_map].
    destruct (sysfs_loop_body cfg soil_drv_fd st t b (bs ++ rest)
                Hex Hout Hfd Hrd Hb Hpump Hsleep) as (hi1 & n1 & t1 & E1).
    rewrite (bind_ret_eq _ _ _ _ _ E1).
    destruct (IH (mk_sysfs true true hi1 (fds st) n1 (bs ++ rest)
                    (pin_log st ++ pump_cycle cfg b)) t1
                eq_refl eq_refl Hfd eq_refl) as (hi & n & t' & E).
    exists hi, n, t'. rewrite E.
    cbn [fds pin_log]. rewrite <- app_assoc. reflexivity.
Qed.

Lemma pump_runs_iff_below_target_witness :
  exists (hi : bool) (n : nat) (t' : list (call * Z)),
    main_loop 2 default_config 3 (mk_world (Ev := sysfs_env) running_sysfs []) =
    (Ret tt,
     mk_world (Ev := sysfs_env)
       (mk_sysfs true true hi [(3, FSoilDev)] n []
          ([Drive false] ++
           [Drive true; Elapsed 5; Drive false; Elapsed 3600; Elapsed 3600]))
       t').
Proof.
  apply (pump_runs_iff_below_target default_config 3 [100; 150] []
           running_sysfs []);
    try reflexivity.
  - repeat constructor; cbn; lia.
  - cbn. lia.
  - cbn. lia.
Defined.

(** The calls of the two turns of that scenario, in order. *)
Example scenario_two_readings :
  map fst
    (trace (snd (main_loop 2 default_config 3
                   (mk_world (Ev := sysfs_env) running_sysfs [])))) =
  [Read 3 1; Syslog (MsgCurrent 100);
   Open GPIO_VALUE; Write 4 GPIO_ON; Close 4;
   Syslog (MsgPumpOn 5); Sleep 5;
   Open GPIO_VALUE; Write 5 GPIO_OFF; Close 5;
   Syslog MsgPumpOff; Syslog (MsgSleeping 3600); Sleep 3600;
   Read 3 1; Syslog (MsgCurrent 150);
   Syslog (MsgSleeping 3600); Sleep 3600].
Proof. reflexivity. Qed.

(** ** The connection to the broker *)

Lemma connect_retry_spec (results : nat -> Z) (k : nat) :
  forall (fuel m : nat) (r : Z) (t : list (call * Z)),
    (k <= fuel)%nat ->
    (k <> O -> r <> MQTTCLIENT_SUCCESS) ->
    (forall j, (S j < k)%nat -> results (m + j)%nat <> MQTTCLIENT_SUCCESS) ->
    (match k with O => r | S k' => results (m + k')%nat end = MQTTCLIENT_SUCCESS
     \/ k = fuel) ->
    connect_retry fuel r (mk_world (Ev := broker_env results) m t) =
    (Ret (match k with O => r | S k' => results (m + k')%nat end),
     mk_world (Ev := broker_env results) (m + k)%nat
       (t ++ flat_map (fun j => [(Sleep 5, 0); (MQTTClient_connect, results j)])
                      (seq m k))).
Proof.
  induction k as [|k IH]; intros fuel m r t Hk Hr Hall Hlast.
  - cbn [seq flat_map]. rewrite Nat.add_0_r, app_nil_r.
    destruct fuel as [|fuel]; [reflexivity|].
    destruct Hlast as [Hlast|Hlast]; [|discriminate].
    cbn [connect_retry]. rewrite Hlast. reflexivity.
  - destruct fuel as [|fuel]; [lia|].
    cbn [connect_retry].
    destruct (Z.eqb_spec r MQTTCLIENT_SUCCESS) as [e|_];
      [exfalso; now apply Hr|].
    cbn [negb].
    unfold bind at 1, sleep, bind at 1. rewrite sys_eq. unfold ret.
    cbn [est trace env_step broker_env fst snd rv].
    unfold bind at 1. rewrite sys_rv_eq.
    cbn [est trace env_step broker_env fst snd rv].
    rewrite (IH fuel (S m) (results m)).
    + f_equal.
      * f_equal. destruct k as [|k']; [now rewrite Nat.add_0_r|].
        f_equal. lia.
      * f_equal; [lia|]. cbn [seq flat_map]. rewrite <- !app_assoc. reflexivity.
    + lia.
    + intros Hk0. specialize (Hall O). rewrite Nat.add_0_r in Hall.
      apply Hall. lia.
    + intros j Hj. replace (S m + j)%nat with (m + S j)%nat by lia.
      apply Hall. lia.
    + destruct Hlast as [Hlast|Hlast]; [left|right; lia].
      destruct k as [|k']; [now rewrite Nat.add_0_r in Hlast|].
      replace (S m + k')%nat with (m + S k')%nat by lia. exact Hlast.
Qed.

(** C4, as the claim states it, fails: a broker that refuses five
    connections is asked a sixth time, and when it accepts then, the
    connection succeeds and the initialization does not exit. *)
Lemma sixth_attempt_is_made :
  (forall j, (j < 5)%nat -> sixth_time_lucky j <> MQTTCLIENT_SUCCESS) /\
  mqtt_client_connect
    (mk_world (Ev := broker_env sixth_time_lucky) 0%nat []) =
  (Ret MQTTCLIENT_SUCCESS,
   mk_world (Ev := broker_env sixth_time_lucky) 6%nat
     [(MQTTClient_connect, -1); (Sleep 5, 0);
      (MQTTClient_connect, -1); (Sleep 5, 0);
      (MQTTClient_connect, -1); (Sleep 5, 0);
      (MQTTClient_connect, -1); (Sleep 5, 0);
      (MQTTClient_connect, -1); (Sleep 5, 0);
      (MQTTClient_connect, 0); (Syslog MsgConnectSuccess, 0)]) /\
  fst (mqtt_client_init
         (mk_world (Ev := broker_env sixth_time_lucky) 0%nat [])) = Ret tt.
Proof.
  split; [|split; reflexivity].
  intros j Hj. unfold sixth_time_lucky.
  destruct (Nat.ltb_spec j 5); [discriminate | lia].
Qed.

Lemma mqtt_client_connect_spec (results : nat -> Z) (n k : nat)
    (t : list (call * Z)) :
  (k <= 5)%nat ->
  (forall j, (j < k)%nat -> results (n + j)%nat <> MQTTCLIENT_SUCCESS) ->
  results (n + k)%nat = MQTTCLIENT_SUCCESS \/ k = 5%nat ->
  mqtt_client_connect (mk_world (Ev := broker_env results) n t) =
  (Ret (results (n + k)%nat),
   mk_world (Ev := broker_env results) (n + S k)%nat
     (t ++ connect_calls results n k
        ++ [(Syslog (if results (n + k)%nat =? MQTTCLIENT_SUCCESS
                     then MsgConnectSuccess
                     else MsgConnectFailed (results (n + k)%nat)), 0)])).
Proof.
  intros Hk Hall Hlast.
  unfold mqtt_client_connect, bind at 1. rewrite sys_rv_eq.
  cbn [est trace env_step broker_env fst snd rv].
  unfold bind at 1.
  rewrite (connect_retry_spec results k 5 (S n) (results n)).
  - replace (match k with O => results n | S k' => results (S n + k')%nat end)
      with (results (n + k)%nat)
      by (destruct k; [now rewrite Nat.add_0_r | f_equal; lia]).
    unfold bind, ret.
    destruct (results (n + k)%nat =? MQTTCLIENT_SUCCESS);
      rewrite syslog_eq;
      cbn [est trace env_step broker_env fst snd rv];
      unfold connect_calls; cbn [app];
      rewrite <- !app_assoc; cbn [app];
      (f_equal; f_equal; lia).
  - exact Hk.
  - intros Hk0. specialize (Hall O). rewrite Nat.add_0_r in Hall.
    apply Hall. lia.
  - intros j Hj. replace (S n + j)%nat with (n + S j)%nat by lia.
    apply Hall. lia.
  - destruct Hlast as [Hlast|Hlast]; [left|right; exact Hlast].
    destruct k as [|k']; [now rewrite Nat.add_0_r in Hlast|].
    replace (S n + k')%nat with (n + S k')%nat by lia. exact Hlast.
Qed.

(** C4, amended.  [mqtt_client_connect] makes a first attempt and up to five
    retries, each after a sleep of five seconds: six attempts in all.  It
    stops at the first attempt that succeeds, or after the sixth, and returns
    the value of its last attempt; [mqtt_client_init] returns when that value
    is success and exits with [EXIT_FAILURE] when it is not. *)
Theorem connect_makes_up_to_six_attempts (results : nat -> Z) (n k : nat)
    (t : list (call * Z)) :
  (k <= 5)%nat ->
  (forall j, (j < k)%nat -> results (n + j)%nat <> MQTTCLIENT_SUCCESS) ->
  results (n + k)%nat = MQTTCLIENT_SUCCESS \/ k = 5%nat ->
  mqtt_client_connect (mk_world (Ev := broker_env results) n t) =
  (Ret (results (n + k)%nat),
   mk_world (Ev := broker_env results) (n + S k)%nat
     (t ++ connect_calls results n k
        ++ [(Syslog (if results (n + k)%nat =? MQTTCLIENT_SUCCESS
                     then MsgConnectSuccess
                     else MsgConnectFailed (results (n + k)%nat)), 0)])) /\
  fst (mqtt_client_init (mk_world (Ev := broker_env results) n t)) =
  (if results (n + k)%nat =? MQTTCLIENT_SUCCESS
   then Ret tt else Exit EXIT_FAILURE).
Proof.
  intros Hk Hall Hlast.
  split; [now apply mqtt_client_connect_spec|].
  unfold mqtt_client_init, bind at 1. rewrite sys_rv_eq.
  cbn [est trace env_step broker_env fst snd rv Z.eqb MQTTCLIENT_SUCCESS negb].
  unfold bind at 1. rewrite sys_rv_eq.
  cbn [est trace env_step broker_env fst snd rv Z.eqb MQTTCLIENT_SUCCESS negb].
  unfold bind at 1.
  rewrite (mqtt_client_connect_spec results n k _ Hk Hall Hlast).
  fold MQTTCLIENT_SUCCESS.
  destruct (results (n + k)%nat =? MQTTCLIENT_SUCCESS); reflexivity.
Qed.

Lemma connect_makes_up_to_six_attempts_witness :
  mqtt_client_connect (mk_world (Ev := broker_env sixth_time_lucky) 0%nat []) =
  (Ret (sixth_time_lucky 5%nat),
   mk_world (Ev := broker_env sixth_time_lucky) 6%nat
     ([] ++ connect_calls sixth_time_lucky 0 5
         ++ [(Syslog MsgConnectSuccess, 0)])) /\
  fst (mqtt_client_init (mk_world (Ev := broker_env sixth_time_lucky) 0%nat []))
  = Ret tt.
Proof.
  apply (connect_makes_up_to_six_attempts sixth_time_lucky 0 5 []).
  - lia.
  - intros j Hj. unfold sixth_time_lucky. cbn [Nat.add].
    destruct (Nat.ltb_spec j 5); [discriminate | lia].
  - right. reflexivity.
Defined.

End AppProperties.

(* ===================================================================== *)
(** * Further properties of the driver *)
(* ===================================================================== *)

Section DriverFurther.

Import Driver.
Local Open Scope kern_scope.

(** ** The acquisition *)

(** X1.  An acquisition returns [-EIO] or a value in 0..255, never the
    error code of the transport; it makes between one and
    [I2C_MAX_REREADS + 1] transactions and only appends to the events. *)
Theorem read_sensor_result_range (bus : i2c_bus) (w : kworld) :
  (fst (i2c_soil_drv_read_sensor bus w) = - EIO \/
   0 <= fst (i2c_soil_drv_read_sensor bus w) <= 255) /\
  (attempts w + 1 <= attempts (snd (i2c_soil_drv_read_sensor bus w))
   <= attempts w + (I2C_MAX_REREADS + 1))%nat /\
  exists ev, klog (snd (i2c_soil_drv_read_sensor bus w)) = klog w ++ ev.
Proof.
  destruct (read_sensor_spec bus w) as (k & Hk & Heq & _ & _).
  rewrite Heq. cbn [fst snd attempts klog]. split; [|split].
  - destruct (I2C_READING_OUT_OF_BOUNDS
                (reading_of_attempt bus (attempts w + k))) eqn:E.
    + left. now apply normalize_out_of_bounds.
    + right. apply out_of_bounds_false in E.
      rewrite (normalize_in_bounds _ E). lia.
  - unfold I2C_MAX_REREADS in *. lia.
  - eexists. reflexivity.
Qed.

(** X2.  The acquisition stops at the first attempt that is in bounds: when
    the first [k] attempts are out of bounds and the next one is in bounds,
    it makes exactly [k + 1] transactions, [k] of them re-reads after the
    delay, and returns the normalization of the last one.  With [k = 0] a
    good first reading costs one transaction and no extra delay. *)
Theorem read_sensor_stops_at_first_good (bus : i2c_bus) (w : kworld) (k : nat) :
  (k <= I2C_MAX_REREADS)%nat ->
  (forall j, (j < k)%nat ->
     I2C_READING_OUT_OF_BOUNDS (reading_of_attempt bus (attempts w + j)) = true) ->
  I2C_READING_OUT_OF_BOUNDS (reading_of_attempt bus (attempts w + k)) = false ->
  i2c_soil_drv_read_sensor bus w =
  (normalize (reading_of_attempt bus (attempts w + k)),
   mk_kworld (attempts w + S k)
     (klog w ++ events_of_attempt bus (attempts w)
             ++ reread_events bus (S (attempts w)) k)) /\
  0 <= normalize (reading_of_attempt bus (attempts w + k)) <= 255.
Proof.
  intros Hk Hbad Hgood.
  destruct (read_sensor_spec bus w) as (k' & Hk' & Heq & Hall & Hlast).
  assert (k' = k) as ->.
  { destruct (Nat.lt_trichotomy k' k) as [Hlt | [e | Hgt]]; [|exact e|].
    - assert (Hlt' : (k' < I2C_MAX_REREADS)%nat) by lia.
      specialize (Hlast Hlt'). rewrite Hbad in Hlast by exact Hlt. discriminate.
    - rewrite Hall in Hgood by exact Hgt. discriminate. }
  split; [exact Heq|].
  apply out_of_bounds_false in Hgood.
  rewrite (normalize_in_bounds _ Hgood). lia.
Qed.

Lemma read_sensor_stops_at_first_good_witness :
  i2c_soil_drv_read_sensor flaky_bus kworld0 =
  (normalize (reading_of_attempt flaky_bus (0 + 1)%nat),
   mk_kworld (0 + 2)%nat
     ([] ++ events_of_attempt flaky_bus 0%nat
         ++ reread_events flaky_bus 1%nat 1%nat)) /\
  0 <= normalize (reading_of_attempt flaky_bus (0 + 1)%nat) <= 255.
Proof.
  apply (read_sensor_stops_at_first_good flaky_bus kworld0 1).
  - unfold I2C_MAX_REREADS. lia.
  - intros j Hj. assert (j = 0%nat) as -> by lia. reflexivity.
  - reflexivity.
Defined.

Lemma lor_shiftl_bytes (hi lo : Z) :
  0 <= hi -> 0 <= lo < 256 ->
  Z.lor (Z.shiftl hi 8) lo = 256 * hi + lo.
Proof.
  intros Hhi Hlo.
  rewrite Z.shiftl_mul_pow2 by lia.
  rewrite <- Z.lxor_lor, <- Z.add_nocarry_lxor; try lia.
  all: apply Z.bits_inj'; intros n Hn;
    rewrite Z.land_spec, Z.bits_0;
    destruct (Z.lt_ge_cases n 8) as [Hlt|Hge];
    [ rewrite Z.mul_pow2_bits_low by lia; reflexivity
    | replace lo with (lo mod 2 ^ 8) by (apply Z.mod_small; lia);
      rewrite Z.mod_pow2_bits_high by lia; apply andb_false_r ].
Qed.

(** X3.  A transaction whose send and receive both transfer two bytes
    returns the big-endian value of the two bytes received, a number in
    0..65535, and consists of the send, the delay and the receive. *)
Theorem complete_transaction_big_endian (bus : i2c_bus) (i : nat) :
  send_ret (bus i) = 2 ->
  recv_ret (bus i) = 2 ->
  reading_of_attempt bus i =
    256 * (recv_b0 (bus i) mod 256) + recv_b1 (bus i) mod 256 /\
  0 <= reading_of_attempt bus i <= 65535 /\
  events_of_attempt bus i =
    [KSend I2C_TOUCH_BASE_ADDR I2C_TOUCH_OFFSET; KMsleep I2C_MSEC_DELAY; KRecv 2].
Proof.
  intros Hs Hr.
  unfold reading_of_attempt, events_of_attempt, i2c_soil_drv_single_read_sensor,
    kbind, kret, i2c_master_send, i2c_master_recv, msleep, klog_event, char_val.
  cbn [attempts klog fst snd]. rewrite Hs, Hr. cbn [Z.ltb Z.eqb Z.compare Pos.eqb negb fst snd klog app].
  pose proof (Z.mod_pos_bound (recv_b0 (bus i)) 256 ltac:(lia)) as H0.
  pose proof (Z.mod_pos_bound (recv_b1 (bus i)) 256 ltac:(lia)) as H1.
  rewrite lor_shiftl_bytes by lia.
  repeat split; lia.
Qed.

Lemma complete_transaction_big_endian_witness :
  reading_of_attempt stuck_bus 7 =
    256 * (recv_b0 (stuck_bus 7%nat) mod 256) + recv_b1 (stuck_bus 7%nat) mod 256 /\
  0 <= reading_of_attempt stuck_bus 7 <= 65535 /\
  events_of_attempt stuck_bus 7 =
    [KSend I2C_TOUCH_BASE_ADDR I2C_TOUCH_OFFSET; KMsleep I2C_MSEC_DELAY; KRecv 2].
Proof.
  apply (complete_transaction_big_endian stuck_bus 7); reflexivity.
Defined.

(** ** The device *)

(** X4.  A write whose payload begins with "sim-on" sets [use_simulation]
    to 1, and one whose payload begins with "sim-off" sets it to 0, whatever
    follows the command and whatever the command buffer held; both keep
    [sim_data] and return the full length.  So each command is idempotent. *)
Theorem write_command_sets_mode (dev : i2c_soil_dev) (more stack : list Z) :
  i2c_soil_drv_write dev (SIM_ON_CMD ++ more) (length (SIM_ON_CMD ++ more)) stack
    = (Z.of_nat (length (SIM_ON_CMD ++ more)), mk_dev 1 (sim_data dev)) /\
  i2c_soil_drv_write dev (SIM_OFF_CMD ++ more) (length (SIM_OFF_CMD ++ more)) stack
    = (Z.of_nat (length (SIM_OFF_CMD ++ more)), mk_dev 0 (sim_data dev)).
Proof.
  split.
  - destruct more as [|a [|b more]]; reflexivity.
  - destruct more as [|a more]; reflexivity.
Qed.

(** X5.  Round trip in simulation: a one-byte write stores the byte, and the
    next read returns 1 and gives that byte back as the first byte of the
    caller's memory, without any traffic on the bus. *)
Theorem simulated_write_then_read (bus : i2c_bus) (dev : i2c_soil_dev)
    (b old : Z) (more rest stack : list Z) (count : nat) (w : kworld) :
  use_simulation dev <> 0 ->
  i2c_soil_drv_write dev (b :: more) 1 stack =
    (1, mk_dev (use_simulation dev) b) /\
  i2c_soil_drv_read bus (mk_dev (use_simulation dev) b) (old :: rest) count w =
    ((1, b :: rest), w).
Proof.
  intros Hsim.
  unfold i2c_soil_drv_write, i2c_soil_drv_read, kbind, kret, copy_from_user,
    copy_to_user.
  cbn [use_simulation sim_data].
  destruct (Z.eqb_spec (use_simulation dev) 0) as [e|_]; [contradiction|].
  split; reflexivity.
Qed.

Lemma simulated_write_then_read_witness :
  i2c_soil_drv_write (mk_dev 1 0) [200] 1 (repeat 0 MAX_CMD_BUF_SIZE) =
    (1, mk_dev (use_simulation (mk_dev 1 0)) 200) /\
  i2c_soil_drv_read stuck_bus (mk_dev (use_simulation (mk_dev 1 0)) 200)
    [0; 9] 2 kworld0 = ((1, [200; 9]), kworld0).
Proof.
  apply (simulated_write_then_read stuck_bus (mk_dev 1 0) 200 0 [] [9]
           (repeat 0 MAX_CMD_BUF_SIZE) 2 kworld0).
  discriminate.
Defined.

(** X6.  The stored byte survives a toggle: after "sim-off", a one-byte
    write is consumed without being stored, and after the next "sim-on" a
    read gives back the byte that was stored before the simulation was
    turned off. *)
Theorem simulated_value_survives_toggle (bus : i2c_bus) (dev : i2c_soil_dev)
    (b old : Z) (more rest s1 s2 s3 : list Z) (count : nat) (w : kworld) :
  let d1 := snd (i2c_soil_drv_write dev SIM_OFF_CMD (length SIM_OFF_CMD) s1) in
  let r2 := i2c_soil_drv_write d1 (b :: more) 1 s2 in
  let d3 := snd (i2c_soil_drv_write (snd r2) SIM_ON_CMD (length SIM_ON_CMD) s3) in
  r2 = (1, mk_dev 0 (sim_data dev)) /\
  d3 = mk_dev 1 (sim_data dev) /\
  i2c_soil_drv_read bus d3 (old :: rest) count w =
    ((1, sim_data dev :: rest), w).
Proof.
  repeat split.
Qed.

(** X7.  What a write can touch and return: it returns its count or
    [-EFAULT]; a write of another size than one byte never changes
    [sim_data], and when it returns [-EFAULT] it changes nothing; a
    one-byte write never changes [use_simulation], and changes nothing when
    the simulation is off. *)
Theorem write_frame (dev : i2c_soil_dev) (ubuf stack : list Z) (count : nat) :
  let r := i2c_soil_drv_write dev ubuf count stack in
  (fst r = Z.of_nat count \/ fst r = - EFAULT) /\
  (count <> 1%nat -> sim_data (snd r) = sim_data dev) /\
  (count <> 1%nat -> fst r = - EFAULT -> snd r = dev) /\
  (count = 1%nat -> use_simulation (snd r) = use_simulation dev) /\
  (count = 1%nat -> use_simulation dev = 0 -> r = (1, dev)).
Proof.
  unfold i2c_soil_drv_write, EFAULT.
  destruct (Nat.eqb_spec 1 count) as [e|ne].
  - subst count.
    destruct (Z.eqb_spec (use_simulation dev) 0) as [Hz|Hnz]; cbn [negb].
    + cbn. repeat split; auto; try lia; try contradiction.
    + destruct (copy_from_user [sim_data dev] ubuf 1) as [dst nc].
      destruct (negb (nc =? 0)); cbn; repeat split; auto; try lia;
        try contradiction.
  - destruct (copy_from_user stack ubuf (Nat.min MAX_CMD_BUF_SIZE count))
      as [cmd_buf nc].
    destruct (negb (nc =? 0)).
    + cbn. repeat split; auto; try lia; intros; congruence.
    + repeat match goal with
             | |- context [if ?c then _ else _] => destruct c
             end; cbn; repeat split; auto; try lia;
        try (intros; congruence); intros; lia.
Qed.

(** X8.  A write of eight or more bytes looks at its first eight bytes
    only: when these are accessible it returns its full count, whatever the
    count and whether or not the rest of the payload is accessible, and
    leaves the device as the write of these eight bytes alone does. *)
Theorem write_uses_first_eight_bytes (dev : i2c_soil_dev) (ubuf stack : list Z)
    (count : nat) :
  (MAX_CMD_BUF_SIZE <= count)%nat ->
  (MAX_CMD_BUF_SIZE <= length ubuf)%nat ->
  i2c_soil_drv_write dev ubuf count stack =
  (Z.of_nat count,
   snd (i2c_soil_drv_write dev (firstn MAX_CMD_BUF_SIZE ubuf) MAX_CMD_BUF_SIZE stack)).
Proof.
  intros Hc Hl. unfold i2c_soil_drv_write, copy_from_user.
  destruct (Nat.eqb_spec 1 count) as [e|_]; [unfold MAX_CMD_BUF_SIZE in *; lia|].
  cbn [Nat.eqb MAX_CMD_BUF_SIZE].
  rewrite Nat.min_l by exact Hc. rewrite Nat.min_id.
  rewrite length_firstn, Nat.min_l by exact Hl.
  rewrite firstn_firstn, Nat.min_id.
  destruct (Nat.leb_spec MAX_CMD_BUF_SIZE (length ubuf)) as [_|Hgt]; [|lia].
  rewrite Nat.leb_refl. cbn [negb Z.eqb].
  repeat match goal with
         | |- context [if ?c then _ else _] => destruct c
         end; reflexivity.
Qed.

Lemma write_uses_first_eight_bytes_witness :
  i2c_soil_drv_write (mk_dev 0 42) (SIM_ON_CMD ++ [10; 10; 10]) 100 [] =
  (Z.of_nat 100,
   snd (i2c_soil_drv_write (mk_dev 0 42)
          (firstn MAX_CMD_BUF_SIZE (SIM_ON_CMD ++ [10; 10; 10]))
          MAX_CMD_BUF_SIZE [])).
Proof.
  apply (write_uses_first_eight_bytes (mk_dev 0 42) (SIM_ON_CMD ++ [10; 10; 10])
           [] 100); unfold MAX_CMD_BUF_SIZE; simpl; lia.
Defined.

(** X9.  What a read can return and touch: it returns 1, [-EIO] or
    [-EFAULT]; it never changes the caller's memory behind the first byte,
    and changes none of it when it fails; in simulation it makes no traffic
    on the bus; without simulation a read that returns 1 gives the byte of
    the acquisition. *)
Theorem read_frame (bus : i2c_bus) (dev : i2c_soil_dev) (ubuf : list Z)
    (count : nat) (w : kworld) :
  let r := i2c_soil_drv_read bus dev ubuf count w in
  (fst (fst r) = 1 \/ fst (fst r) = - EIO \/ fst (fst r) = - EFAULT) /\
  tl (snd (fst r)) = tl ubuf /\
  (fst (fst r) < 0 -> snd (fst r) = ubuf) /\
  (use_simulation dev <> 0 -> snd r = w) /\
  (use_simulation dev = 0 ->
     snd r = snd (i2c_soil_drv_read_sensor bus w) /\
     (fst (fst r) = 1 ->
        hd 0 (snd (fst r)) = fst (i2c_soil_drv_read_sensor bus w))).
Proof.
  unfold i2c_soil_drv_read, kbind, kret, copy_to_user.
  destruct (Z.eqb_spec (use_simulation dev) 0) as [Hsim|Hsim]; cbn [negb].
  - pose proof (read_sensor_value_range bus w) as Hrange.
    destruct (i2c_soil_drv_read_sensor bus w) as [retval w1]. cbn [fst snd] in *.
    destruct (Z.ltb_spec retval 0) as [Hneg|Hpos].
    + cbn [fst snd]. unfold EIO in *. repeat split; auto; try lia.
    + assert (Hb : 0 <= retval <= 255) by (unfold EIO in *; lia).
      unfold char_val. rewrite Z.mod_small by lia.
      destruct ubuf as [|old rest]; cbn; unfold EFAULT;
        repeat split; auto; try lia.
  - destruct ubuf as [|old rest]; cbn; unfold EFAULT;
      repeat split; auto; try lia; try contradiction.
Qed.

End DriverFurther.

(* ===================================================================== *)
(** * Further properties of the application *)
(* ===================================================================== *)

Section AppFurther.

Import App.
Local Open Scope prog_scope.

Ltac nth_error_cases :=
  repeat match goal with
         | H : nth_error (_ :: _) ?i = Some _ |- _ =>
             is_var i; destruct i; cbn [nth_error firstn length] in *
         | H : nth_error [] ?i = Some _ |- _ =>
             is_var i; destruct i; discriminate H
         end.

(** ** gpio.c in any environment *)

Lemma gpio_enable_spec {Ev : environment} (w : world Ev) :
  exists (res : Z) (w' : world Ev) (t : list (call * Z)),
    gpio_enable w = (Ret res, w') /\
    trace w' = trace w ++ t /\
    ((res = GPIO_ERROR /\ owc_run GPIO_EXPORT GPIO_PIN true t) \/
     (exists t1 t2 f2,
        t = t1 ++ t2 /\
        owc_run GPIO_EXPORT GPIO_PIN false t1 /\
        owc_run GPIO_DIRECTION GPIO_OUTPUT f2 t2 /\
        res = if f2 then GPIO_ERROR else GPIO_OK)).
Proof.
  unfold gpio_enable, bind.
  destruct (open_write_close_spec GPIO_EXPORT GPIO_PIN w)
    as (f1 & w1 & t1 & E1 & T1 & R1).
  rewrite E1. destruct f1.
  - exists GPIO_ERROR, w1, t1. unfold ret. auto.
  - destruct (open_write_close_spec GPIO_DIRECTION GPIO_OUTPUT w1)
      as (f2 & w2 & t2 & E2 & T2 & R2).
    rewrite E2.
    exists (if f2 then GPIO_ERROR else GPIO_OK), w2, (t1 ++ t2).
    split; [destruct f2; reflexivity|]. split.
    + rewrite T2, T1, app_assoc. reflexivity.
    + right. exists t1, t2, f2. auto.
Qed.

(** X10.  [gpio_enable] begins with the export file and writes the pin
    number there; the direction file is opened only after the export step
    is complete, so the pin is never configured before it is exported.  It
    returns [GPIO_OK] only after both complete steps, and a failure of the
    direction step is not followed by an unexport: the pin stays
    exported. *)
Theorem gpio_enable_export_before_direction {Ev : environment} (w : world Ev) :
  exists (res : Z) (w' : world Ev) (t : list (call * Z)),
    gpio_enable w = (Ret res, w') /\
    trace w' = trace w ++ t /\
    (res = GPIO_OK \/ res = GPIO_ERROR) /\
    (exists fd, nth_error t 0 = Some (Open GPIO_EXPORT, fd)) /\
    (forall i fd,
       nth_error t i = Some (Open GPIO_DIRECTION, fd) ->
       exists fd1, firstn i t = owc_steps GPIO_EXPORT GPIO_PIN fd1) /\
    (forall i fd, nth_error t i <> Some (Open GPIO_UNEXPORT, fd)) /\
    (res = GPIO_OK ->
       exists fd1 fd2,
         t = owc_steps GPIO_EXPORT GPIO_PIN fd1
             ++ owc_steps GPIO_DIRECTION GPIO_OUTPUT fd2).
Proof.
  destruct (gpio_enable_spec w) as (res & w' & t & E & T & R).
  assert (Hp1 : GPIO_EXPORT <> GPIO_DIRECTION) by discriminate.
  assert (Hp2 : GPIO_EXPORT <> GPIO_UNEXPORT) by discriminate.
  assert (Hp3 : GPIO_DIRECTION <> GPIO_UNEXPORT) by discriminate.
  exists res, w', t. split; [exact E|]. split; [exact T|].
  destruct R as [[Hres R1] | (t1 & t2 & f2 & Ht & R1 & R2 & Hres)].
  - subst res. inversion R1; subst; clear R1.
    all: unfold owc_steps in *; cbn [app] in *.
    all: repeat match goal with |- _ /\ _ => split end.
    all: try (intros i fd0 Habs); intros; nth_error_cases.
    all: try (now right); try congruence; try discriminate.
    all: eexists; reflexivity.
  - inversion R1; subst; clear R1.
    inversion R2; subst; clear R2.
    all: unfold owc_steps in *; cbn [app] in *.
    all: repeat match goal with |- _ /\ _ => split end.
    all: try (intros i fd1 Habs); intros; nth_error_cases.
    all: try (now left); try (now right).
    all: try congruence; try discriminate.
    all: repeat match goal with
                | H : Some _ = Some _ |- _ => injection H as ?; subst
                end.
    all: try (eexists; reflexivity).
    all: try (do 2 eexists; reflexivity).
Qed.

(** X11.  [gpio_on] and [gpio_off] make one step on the value file,
    writing "1" and "0": they open the value file, write the level when the
    open succeeded and close the file when the write transferred its byte,
    and make no other call.  They return [GPIO_OK] exactly when the step is
    complete, and [GPIO_ERROR] when a call of it failed.  A write that does
    not transfer its byte is the last call: the descriptor is then not
    closed. *)
Theorem gpio_level_single_step {Ev : environment} (level : bool) (w : world Ev) :
  let data := if level then GPIO_ON else GPIO_OFF in
  exists (res : Z) (w' : world Ev) (t : list (call * Z)),
    (if level then gpio_on else gpio_off) w = (Ret res, w') /\
    trace w' = trace w ++ t /\
    owc_run GPIO_VALUE data (negb (res =? GPIO_OK)) t /\
    (exists fd, nth_error t 0 = Some (Open GPIO_VALUE, fd)) /\
    (forall fd, nth_error t 0 = Some (Open GPIO_VALUE, fd) -> fd <> -1 ->
       exists v, nth_error t 1 = Some (Write fd data, v)) /\
    (forall fd, nth_error t 1 = Some (Write fd data, strlen data) ->
       exists c, nth_error t 2 = Some (Close fd, c)) /\
    (length t <= 3)%nat /\
    (forall c v, In (c, v) t ->
       c = Open GPIO_VALUE \/ exists fd, c = Write fd data \/ c = Close fd) /\
    (res = GPIO_OK <-> exists fd, fd <> -1 /\ t = owc_steps GPIO_VALUE data fd) /\
    (res <> GPIO_OK -> res = GPIO_ERROR) /\
    (forall i fd v,
       nth_error t i = Some (Write fd data, v) ->
       v <> strlen data ->
       res = GPIO_ERROR /\ length t = S i).
Proof.
  intros data.
  destruct (open_write_close_spec GPIO_VALUE data w)
    as (f & w1 & t & E & T & R).
  exists (if f then GPIO_ERROR else GPIO_OK), w1, t.
  split.
  { subst data. destruct level; unfold gpio_on, gpio_off;
      rewrite (bind_ret_eq _ _ _ _ _ E); destruct f; reflexivity. }
  split; [exact T|].
  split; [destruct f; exact R|].
  inversion R; subst f t; unfold owc_steps.
  all: repeat match goal with |- _ /\ _ => split end.
  all: try (eexists; reflexivity).
  all: try (cbn [length]; lia).
  all: try (intros fd0 Hn; cbn [nth_error] in Hn; intros;
            try discriminate;
            injection Hn as ?; subst; try congruence;
            eexists; reflexivity).
  all: try (intros c0 v0 Hin; cbn [In] in Hin;
            repeat match goal with
                   | H : _ \/ _ |- _ => destruct H
                   | H : (_, _) = (_, _) |- _ => injection H as ?; subst
                   | H : False |- _ => contradiction
                   end;
            (now left) || (right; eexists; (now left) || (now right))).
  all: try (split; [discriminate|intros (fd0 & _ & Habs); discriminate]).
  all: try (split; [intros _; eexists; split; [eassumption|reflexivity]
                   | reflexivity]).
  all: try (intros; nth_error_cases; repeat split; congruence).
  all: try (intros; reflexivity || congruence).
  split; [discriminate|].
  intros (fd0 & _ & Habs). injection Habs as _ _ Hc. congruence.
Qed.

(** ** gpio.c on the sysfs files *)

Lemma owc_write_fails {Ev : environment} (path data : string) (w : world Ev)
    (fd n d1 d2 : Z) (e1 e2 : env_state Ev) :
  env_step Ev (est w) (Open path) = (mk_reply fd d1, e1) ->
  fd <> -1 ->
  env_step Ev e1 (Write fd data) = (mk_reply n d2, e2) ->
  n <> strlen data ->
  open_write_close_fails path data w =
  (Ret true, mk_world e2 (trace w ++ [(Open path, fd); (Write fd data, n)])).
Proof.
  intros H1 Hfd H2 Hn.
  unfold open_write_close_fails, bind. rewrite sys_rv_eq, H1. cbn [fst snd rv].
  destruct (Z.eqb_spec fd (-1)) as [e|_]; [contradiction|].
  rewrite sys_rv_eq. cbn [est trace]. rewrite H2. cbn [fst snd rv].
  destruct (Z.eqb_spec n (strlen data)) as [e|_]; [contradiction|].
  cbn [negb]. unfold ret. rewrite <- app_assoc. reflexivity.
Qed.

Ltac sysfs_calls Hex :=
  first
    [ cbn [est env_step sysfs_env sysfs_step];
      apply sysfs_open_present;
      [reflexivity | cbn [file_present]; try exact Hex; reflexivity]
    | lia
    | cbn [env_step sysfs_env sysfs_step]; unfold sysfs_write;
      cbn [fds fd_lookup]; rewrite Z.eqb_refl;
      cbn [exported direction_out value_high next_fd readings pin_log fds];
      rewrite ?Hex; reflexivity
    | cbn [env_step sysfs_env sysfs_step]; apply sysfs_close_top
    | discriminate ].

Lemma sysfs_export (st : sysfs) (t : list (call * Z)) :
  exported st = false ->
  open_write_close_fails GPIO_EXPORT GPIO_PIN (mk_world (Ev := sysfs_env) st t) =
  (Ret false,
   mk_world (Ev := sysfs_env)
     (mk_sysfs true false (value_high st) (fds st) (S (next_fd st))
               (readings st) (pin_log st))
     (t ++ owc_steps GPIO_EXPORT GPIO_PIN (Z.of_nat (next_fd st)))).
Proof. intros Hex. eapply owc_success; sysfs_calls Hex. Qed.

Lemma sysfs_export_refused (st : sysfs) (t : list (call * Z)) :
  exported st = true ->
  open_write_close_fails GPIO_EXPORT GPIO_PIN (mk_world (Ev := sysfs_env) st t) =
  (Ret true,
   mk_world (Ev := sysfs_env)
     (mk_sysfs true (direction_out st) (value_high st)
               ((Z.of_nat (next_fd st), FExport) :: fds st) (S (next_fd st))
               (readings st) (pin_log st))
     (t ++ [(Open GPIO_EXPORT, Z.of_nat (next_fd st));
            (Write (Z.of_nat (next_fd st)) GPIO_PIN, -1)])).
Proof.
  intros Hex. destruct st as [ex out hi l n rd lg]. cbn in Hex. subst ex.
  cbn [exported direction_out value_high fds next_fd readings pin_log].
  apply (owc_write_fails (Ev := sysfs_env) GPIO_EXPORT GPIO_PIN
           (mk_world (Ev := sysfs_env) (mk_sysfs true out hi l n rd lg) t)
           (Z.of_nat n) (-1) 0 0
           (mk_sysfs true out hi ((Z.of_nat n, FExport) :: l) (S n) rd lg)
           (mk_sysfs true out hi ((Z.of_nat n, FExport) :: l) (S n) rd lg)).
  - reflexivity.
  - lia.
  - cbn [env_step sysfs_env sysfs_step]. unfold sysfs_write.
    cbn [fds fd_lookup exported next_fd]. rewrite Z.eqb_refl.
    reflexivity.
  - discriminate.
Qed.

Lemma sysfs_direction_output (st : sysfs) (t : list (call * Z)) :
  exported st = true ->
  open_write_close_fails GPIO_DIRECTION GPIO_OUTPUT (mk_world (Ev := sysfs_env) st t) =
  (Ret false,
   mk_world (Ev := sysfs_env)
     (mk_sysfs true true false (fds st) (S (next_fd st))
               (readings st) (pin_log st ++ [Drive false]))
     (t ++ owc_steps GPIO_DIRECTION GPIO_OUTPUT (Z.of_nat (next_fd st)))).
Proof. intros Hex. eapply owc_success; sysfs_calls Hex. Qed.

Lemma sysfs_gpio_enable (st : sysfs) (t : list (call * Z)) :
  gpio_enable (mk_world (Ev := sysfs_env) st t) =
  if exported st then
    (Ret GPIO_ERROR,
     mk_world (Ev := sysfs_env)
       (mk_sysfs true (direction_out st) (value_high st)
                 ((Z.of_nat (next_fd st), FExport) :: fds st) (S (next_fd st))
                 (readings st) (pin_log st))
       (t ++ [(Open GPIO_EXPORT, Z.of_nat (next_fd st));
              (Write (Z.of_nat (next_fd st)) GPIO_PIN, -1)]))
  else
    (Ret GPIO_OK,
     mk_world (Ev := sysfs_env)
       (mk_sysfs true true false (fds st) (S (S (next_fd st)))
                 (readings st) (pin_log st ++ [Drive false]))
       ((t ++ owc_steps GPIO_EXPORT GPIO_PIN (Z.of_nat (next_fd st)))
          ++ owc_steps GPIO_DIRECTION GPIO_OUTPUT (Z.of_nat (S (next_fd st))))).
Proof.
  unfold gpio_enable. destruct (exported st) eqn:Hex.
  - erewrite bind_ret_eq by (apply sysfs_export_refused; exact Hex).
    reflexivity.
  - erewrite bind_ret_eq by (apply sysfs_export; exact Hex).
    cbn match.
    erewrite bind_ret_eq by (apply sysfs_direction_output; reflexivity).
    reflexivity.
Qed.

(** X12.  On the sysfs files, [gpio_enable] on a pin that is not exported
    succeeds and leaves it exported, as an output driving low.  A second
    [gpio_enable] fails, as the comment in gpio.c says, and leaves the pin
    as the first one configured it; the descriptor of the export file that
    it opened is not closed. *)
Theorem sysfs_enable_twice (st : sysfs) (t : list (call * Z)) :
  exported st = false ->
  let r1 := gpio_enable (mk_world (Ev := sysfs_env) st t) in
  let r2 := gpio_enable (snd r1) in
  fst r1 = Ret GPIO_OK /\
  est (snd r1) =
    mk_sysfs true true false (fds st) (S (S (next_fd st))) (readings st)
             (pin_log st ++ [Drive false]) /\
  fst r2 = Ret GPIO_ERROR /\
  est (snd r2) =
    mk_sysfs true true false
             ((Z.of_nat (S (S (next_fd st))), FExport) :: fds st)
             (S (S (S (next_fd st)))) (readings st)
             (pin_log st ++ [Drive false]).
Proof.
  intros Hex r1 r2. subst r2 r1.
  rewrite sysfs_gpio_enable, Hex. cbn [fst snd est].
  rewrite sysfs_gpio_enable. cbn [exported fst snd est].
  repeat split.
Qed.

Lemma sysfs_enable_twice_witness :
  let r1 := gpio_enable (mk_world (Ev := sysfs_env) pin_not_enabled []) in
  let r2 := gpio_enable (snd r1) in
  fst r1 = Ret GPIO_OK /\
  est (snd r1) =
    mk_sysfs true true false [(3, FSoilDev)] 6 [100] ([] ++ [Drive false]) /\
  fst r2 = Ret GPIO_ERROR /\
  est (snd r2) =
    mk_sysfs true true false [(6, FExport); (3, FSoilDev)] 7 [100]
             ([] ++ [Drive false]).
Proof.
  apply (sysfs_enable_twice pin_not_enabled []). reflexivity.
Defined.

(** X13.  On the sysfs files, enabling a pin that is not exported, setting
    a level and disabling succeed in this order, and [gpio_disable] shuts
    off the drive whatever the last level was: the pin ends released and
    not exported, with the descriptor table as before.  A [gpio_disable]
    after that fails and changes nothing at the pin. *)
Theorem sysfs_enable_level_disable (level : bool) (st : sysfs)
    (t : list (call * Z)) :
  exported st = false ->
  let r1 := gpio_enable (mk_world (Ev := sysfs_env) st t) in
  let r2 := (if level then gpio_on else gpio_off) (snd r1) in
  let r3 := gpio_disable (snd r2) in
  let r4 := gpio_disable (snd r3) in
  fst r1 = Ret GPIO_OK /\ fst r2 = Ret GPIO_OK /\ fst r3 = Ret GPIO_OK /\
  est (snd r3) =
    mk_sysfs false false level (fds st) (S (S (S (S (S (next_fd st))))))
             (readings st)
             (pin_log st ++ [Drive false; Drive level; Release]) /\
  fst r4 = Ret GPIO_ERROR /\
  est (snd r4) = est (snd r3).
Proof.
  intros Hex r1 r2 r3 r4. subst r4 r3 r2 r1.
  rewrite sysfs_gpio_enable, Hex. cbn [fst snd].
  rewrite (sysfs_gpio_level level) by reflexivity. cbn [fst snd].
  rewrite sysfs_gpio_disable. cbn [exported fst snd est].
  rewrite sysfs_gpio_disable. cbn [exported fst snd est].
  cbn [fds next_fd readings pin_log value_high].
  rewrite <- !app_assoc. repeat split.
Qed.

Lemma sysfs_enable_level_disable_witness :
  let r1 := gpio_enable (mk_world (Ev := sysfs_env) pin_not_enabled []) in
  let r2 := gpio_on (snd r1) in
  let r3 := gpio_disable (snd r2) in
  let r4 := gpio_disable (snd r3) in
  fst r1 = Ret GPIO_OK /\ fst r2 = Ret GPIO_OK /\ fst r3 = Ret GPIO_OK /\
  est (snd r3) =
    mk_sysfs false false true [(3, FSoilDev)] 9 [100]
             ([] ++ [Drive false; Drive true; Release]) /\
  fst r4 = Ret GPIO_ERROR /\
  est (snd r4) = est (snd r3).
Proof.
  apply (sysfs_enable_level_disable true pin_not_enabled []). reflexivity.
Defined.

Lemma mqtt_client_init_result (results : nat -> Z) (n k : nat)
    (t : list (call * Z)) :
  (k <= 5)%nat ->
  (forall j, (j < k)%nat -> results (n + j)%nat <> MQTTCLIENT_SUCCESS) ->
  results (n + k)%nat = MQTTCLIENT_SUCCESS \/ k = 5%nat ->
  fst (mqtt_client_init (mk_world (Ev := broker_env results) n t)) =
  (if results (n + k)%nat =? MQTTCLIENT_SUCCESS
   then Ret tt else Exit EXIT_FAILURE).
Proof.
  intros Hk Hall Hlast.
  unfold mqtt_client_init, bind at 1. rewrite sys_rv_eq.
  cbn [est trace env_step broker_env fst snd rv Z.eqb MQTTCLIENT_SUCCESS negb].
  unfold bind at 1. rewrite sys_rv_eq.
  cbn [est trace env_step broker_env fst snd rv Z.eqb MQTTCLIENT_SUCCESS negb].
  unfold bind at 1.
  rewrite (mqtt_client_connect_spec results n k _ Hk Hall Hlast).
  fold MQTTCLIENT_SUCCESS.
  destruct (results (n + k)%nat =? MQTTCLIENT_SUCCESS); reflexivity.
Qed.

(** ** The connection to the broker, whatever it answers *)

(** Among the answers [n], [n+1], ... the first success within [b] steps, or
    [b] when there is none. *)
Lemma first_success_within (results : nat -> Z) (n b : nat) :
  exists k : nat,
    (k <= b)%nat /\
    (forall j, (j < k)%nat -> results (n + j)%nat <> MQTTCLIENT_SUCCESS) /\
    (results (n + k)%nat = MQTTCLIENT_SUCCESS \/ k = b).
Proof.
  induction b as [|b (k & Hk & Hall & Hlast)].
  - exists O. repeat split; [lia | intros j Hj; lia | now right].
  - destruct Hlast as [Hlast|Hlast].
    + exists k. repeat split; [lia | exact Hall | now left].
    + subst k.
      destruct (Z.eq_dec (results (n + b)%nat) MQTTCLIENT_SUCCESS) as [e|ne].
      * exists b. repeat split; [lia | exact Hall | now left].
      * exists (S b). repeat split; [lia | | now right].
        intros j Hj. destruct (Nat.eq_dec j b) as [->|Hne]; [exact ne|].
        apply Hall. lia.
Qed.

Lemma connect_calls_sleeps (results : nat -> Z) (n k : nat) :
  length (filter (fun e => is_sleep_call (fst e)) (connect_calls results n k)) = k /\
  Forall (fun e => is_sleep_call (fst e) = true -> fst e = Sleep 5)
         (connect_calls results n k).
Proof.
  unfold connect_calls. cbn [filter fst is_sleep_call].
  generalize (S n) as m. induction k as [|k IH]; intros m.
  - split; [reflexivity | repeat constructor; discriminate].
  - cbn [seq flat_map app filter fst is_sleep_call length].
    destruct (IH (S m)) as [IH1 IH2]. split.
    + f_equal. exact IH1.
    + inversion IH2 as [|x l Hx Hl]; subst.
      repeat constructor; try discriminate; try reflexivity. exact Hl.
Qed.

(** X14.  Whatever the broker answers, [mqtt_client_connect] returns: it
    makes at most six attempts, sleeps five seconds before each retry, so
    at most five times, and returns the answer to its last attempt.  It
    returns success exactly when one of the six answers it could get is
    success. *)
Theorem connect_always_returns (results : nat -> Z) (n : nat)
    (t : list (call * Z)) :
  exists k : nat,
    (k <= 5)%nat /\
    mqtt_client_connect (mk_world (Ev := broker_env results) n t) =
    (Ret (results (n + k)%nat),
     mk_world (Ev := broker_env results) (n + S k)%nat
       (t ++ connect_calls results n k
          ++ [(Syslog (if results (n + k)%nat =? MQTTCLIENT_SUCCESS
                       then MsgConnectSuccess
                       else MsgConnectFailed (results (n + k)%nat)), 0)])) /\
    length (filter (fun e => is_sleep_call (fst e)) (connect_calls results n k)) = k /\
    Forall (fun e => is_sleep_call (fst e) = true -> fst e = Sleep 5)
           (connect_calls results n k) /\
    (results (n + k)%nat = MQTTCLIENT_SUCCESS <->
     exists j, (j <= 5)%nat /\ results (n + j)%nat = MQTTCLIENT_SUCCESS).
Proof.
  destruct (first_success_within results n 5) as (k & Hk & Hall & Hlast).
  exists k. split; [exact Hk|]. split.
  - now apply mqtt_client_connect_spec.
  - destruct (connect_calls_sleeps results n k) as [H1 H2].
    split; [exact H1|]. split; [exact H2|]. split.
    + intros Hs. exists k. split; [exact Hk | exact Hs].
    + intros (j & Hj & Hs). destruct Hlast as [Hlast|Hlast]; [exact Hlast|].
      subst k. destruct (Nat.eq_dec j 5) as [->|Hne]; [exact Hs|].
      exfalso. apply (Hall j); [lia | exact Hs].
Qed.

(** X15.  A lost connection is never fatal: whatever the broker answers,
    [mqtt_connection_lost] logs, makes the same attempts as
    [mqtt_client_connect], drops the result and returns, also when all six
    attempts fail, where [mqtt_client_init] exits. *)
Theorem connection_lost_never_exits (results : nat -> Z) (n : nat)
    (t : list (call * Z)) :
  exists k : nat,
    (k <= 5)%nat /\
    mqtt_connection_lost (mk_world (Ev := broker_env results) n t) =
    (Ret tt,
     snd (mqtt_client_connect
            (mk_world (Ev := broker_env results) n
               (t ++ [(Syslog MsgConnectionLost, 0)])))) /\
    est (snd (mqtt_connection_lost (mk_world (Ev := broker_env results) n t)))
      = (n + S k)%nat /\
    (results (n + k)%nat <> MQTTCLIENT_SUCCESS ->
       fst (mqtt_client_init (mk_world (Ev := broker_env results) n t))
       = Exit EXIT_FAILURE).
Proof.
  destruct (first_success_within results n 5) as (k & Hk & Hall & Hlast).
  exists k. split; [exact Hk|].
  assert (E : mqtt_connection_lost (mk_world (Ev := broker_env results) n t) =
              (Ret tt,
               snd (mqtt_client_connect
                      (mk_world (Ev := broker_env results) n
                         (t ++ [(Syslog MsgConnectionLost, 0)]))))).
  { unfold mqtt_connection_lost, bind at 1. rewrite syslog_eq.
    cbn [est trace env_step broker_env fst snd rv].
    unfold bind.
    rewrite (mqtt_client_connect_spec results n k _ Hk Hall Hlast).
    reflexivity. }
  split; [exact E|]. split.
  - rewrite E. cbn [snd].
    rewrite (mqtt_client_connect_spec results n k _ Hk Hall Hlast).
    reflexivity.
  - intros Hne.
    rewrite (mqtt_client_init_result results n k t Hk Hall Hlast).
    apply Z.eqb_neq in Hne. now rewrite Hne.
Qed.

(** ** The control loop in any environment *)

Lemma report_returns {Ev : environment} (cfg : config) (m : message)
    (w : world Ev) :
  exists (w' : world Ev) (t : list (call * Z)),
    report cfg m w = (Ret tt, w') /\
    trace w' = trace w ++ t /\
    Forall quiet t.
Proof.
  unfold report, bind at 1. rewrite syslog_eq.
  set (w1 := mk_world _ _).
  destruct (mqtt_broker_uri cfg).
  - unfold mqtt_publish_msg, bind at 1. rewrite sys_rv_eq.
    set (rvp := rv _). set (w2 := mk_world _ _).
    destruct (Z.eqb_spec rvp MQTTCLIENT_SUCCESS) as [e|ne]; cbn [negb].
    + exists w2. eexists. unfold ret. split; [reflexivity|]. split.
      * subst w2 w1. cbn [trace]. rewrite <- app_assoc. reflexivity.
      * repeat constructor.
    + unfold bind at 1. rewrite syslog_eq. set (w3 := mk_world _ _).
      unfold perror, bind. rewrite sys_eq. unfold ret.
      eexists. eexists. split; [reflexivity|]. split.
      * subst w3 w2 w1. cbn [trace]. rewrite <- !app_assoc. reflexivity.
      * repeat constructor.
  - exists w1. eexists. unfold ret. split; [reflexivity|]. split.
    + subst w1. cbn [trace]. reflexivity.
    + repeat constructor.
Qed.

Lemma sleep_eq {Ev : environment} (seconds : Z) (w : world Ev) :
  sleep seconds w =
  (Ret tt,
   mk_world (snd (env_step Ev (est w) (Sleep (to_unsigned seconds))))
     (trace w ++ [(Sleep (to_unsigned seconds),
                   rv (fst (env_step Ev (est w) (Sleep (to_unsigned seconds)))))])).
Proof. unfold sleep, bind. rewrite sys_eq. reflexivity. Qed.

Lemma perror_eq {Ev : environment} (w : world Ev) :
  perror w =
  (Ret tt,
   mk_world (snd (env_step Ev (est w) Perror))
     (trace w ++ [(Perror, rv (fst (env_step Ev (est w) Perror)))])).
Proof. unfold perror, bind. rewrite sys_eq. reflexivity. Qed.

(** X16.  In any environment, and whatever the broker answers to what is
    published, a turn whose reading is not below the target opens, writes
    and closes no file, so it leaves the pin alone; it only logs and
    publishes, and ends with the one sleep of [sleep_time]. *)
Theorem idle_turn_touches_no_file {Ev : environment} (cfg : config)
    (soil_drv_fd : Z) (w : world Ev) :
  rv (fst (env_step Ev (est w) (Read soil_drv_fd 1))) = 1 ->
  target cfg <= rdata (fst (env_step Ev (est w) (Read soil_drv_fd 1))) mod 256 ->
  exists (w' : world Ev) (t : list (call * Z)) (v : Z),
    loop_body cfg soil_drv_fd w = (Ret tt, w') /\
    trace w' =
      trace w ++ (Read soil_drv_fd 1, 1)
              :: t ++ [(Sleep (to_unsigned (sleep_time cfg)), v)] /\
    Forall quiet t.
Proof.
  intros Hrv Hge.
  unfold loop_body, bind at 1. rewrite sys_eq.
  set (r := fst (env_step Ev (est w) (Read soil_drv_fd 1))) in *.
  set (w0 := mk_world _ _).
  rewrite Hrv. cbn [Z.eqb Pos.eqb negb].
  destruct (report_returns cfg (MsgCurrent (rdata r mod 256)) w0)
    as (w1 & t1 & E1 & T1 & Q1).
  rewrite (bind_ret_eq _ _ _ _ _ E1).
  destruct (Z.ltb_spec (rdata r mod 256) (target cfg)) as [Hlt|_]; [lia|].
  erewrite bind_ret_eq by reflexivity.
  destruct (report_returns cfg (MsgSleeping (sleep_time cfg)) w1)
    as (w2 & t2 & E2 & T2 & Q2).
  rewrite (bind_ret_eq _ _ _ _ _ E2).
  rewrite sleep_eq.
  eexists. exists (t1 ++ t2). eexists. split; [reflexivity|]. split.
  - cbn [trace]. rewrite T2, T1. subst w0. cbn [trace].
    rewrite Hrv, <- !app_assoc. reflexivity.
  - apply Forall_app. split; assumption.
Qed.

Lemma idle_turn_touches_no_file_witness :
  exists (w' : world sysfs_env) (t : list (call * Z)) (v : Z),
    loop_body (mk_config 50 3600 5 true) 3
      (mk_world (Ev := sysfs_env) running_sysfs []) = (Ret tt, w') /\
    trace w' =
      [] ++ (Read 3 1, 1)
         :: t ++ [(Sleep (to_unsigned (sleep_time (mk_config 50 3600 5 true))), v)] /\
    Forall quiet t.
Proof.
  apply (idle_turn_touches_no_file (mk_config 50 3600 5 true) 3
           (mk_world (Ev := sysfs_env) running_sysfs [])).
  - reflexivity.
  - vm_compute. discriminate.
Defined.

Lemma owc_run_no_sleep (path data : string) (f : bool) (t : list (call * Z)) :
  owc_run path data f t ->
  Forall (fun e => is_sleep_call (fst e) = false) t.
Proof. intros R. inversion R; subst; unfold owc_steps; repeat constructor. Qed.

Lemma gpio_level_returns {Ev : environment} (level : bool) (w : world Ev) :
  exists (res : Z) (w' : world Ev) (t : list (call * Z)),
    (if level then gpio_on else gpio_off) w = (Ret res, w') /\
    trace w' = trace w ++ t /\
    Forall (fun e => is_sleep_call (fst e) = false) t.
Proof.
  destruct (open_write_close_spec GPIO_VALUE (if level then GPIO_ON else GPIO_OFF) w)
    as (f & w1 & t & E & T & R).
  exists (if f then GPIO_ERROR else GPIO_OK), w1, t. split.
  - destruct level; unfold gpio_on, gpio_off;
      rewrite (bind_ret_eq _ _ _ _ _ E); destruct f; reflexivity.
  - split; [exact T | exact (owc_run_no_sleep _ _ _ _ R)].
Qed.

Lemma gpio_disable_returns {Ev : environment} (w : world Ev) :
  exists (res : Z) (w' : world Ev) (t : list (call * Z)),
    gpio_disable w = (Ret res, w') /\
    trace w' = trace w ++ t /\
    Forall (fun e => is_sleep_call (fst e) = false) t.
Proof.
  destruct (gpio_disable_spec w) as (res & w' & t & E & T & R).
  exists res, w', t. split; [exact E|]. split; [exact T|].
  destruct R as [[_ R1] | (t1 & t2 & f2 & -> & R1 & R2 & _)].
  - exact (owc_run_no_sleep _ _ _ _ R1).
  - apply Forall_app. split;
      [exact (owc_run_no_sleep _ _ _ _ R1) | exact (owc_run_no_sleep _ _ _ _ R2)].
Qed.

Lemma quiet_no_sleep (t : list (call * Z)) :
  Forall quiet t -> Forall (fun e => is_sleep_call (fst e) = false) t.
Proof. apply Forall_impl. intros e [_ H]. exact H. Qed.

(** The fatal exit of the loop: [perror], [gpio_disable] with its result
    dropped, [exit(EXIT_FAILURE)]. *)
Lemma fatal_exit {Ev : environment} (w : world Ev) :
  exists (res : Z) (w' : world Ev) (t : list (call * Z)),
    gpio_disable (snd (perror w)) = (Ret res, w') /\
    (perror ;; _ <- gpio_disable ;; exit (A := unit) EXIT_FAILURE) w
      = (Exit EXIT_FAILURE, w') /\
    trace w' = trace w ++ t /\
    Forall (fun e => is_sleep_call (fst e) = false) t.
Proof.
  rewrite perror_eq. cbn [snd]. set (w1 := mk_world _ _).
  destruct (gpio_disable_returns w1) as (res & w' & t & E & T & Q).
  exists res, w'. eexists. split; [exact E|]. split.
  - unfold bind at 1. rewrite perror_eq. fold w1.
    unfold bind, exit. rewrite E. reflexivity.
  - split.
    + rewrite T. subst w1. cbn [trace]. rewrite <- app_assoc. reflexivity.
    + constructor; [reflexivity | exact Q].
Qed.

(** X17.  In any environment, when the reading is below the target and
    [gpio_on] fails, the turn reports the error, runs [gpio_disable] with
    its result dropped and exits with [EXIT_FAILURE]; it does not sleep, so
    the pump time never starts. *)
Theorem pump_on_failure_is_fatal {Ev : environment} (cfg : config)
    (soil_drv_fd : Z) (w : world Ev) :
  let r := fst (env_step Ev (est w) (Read soil_drv_fd 1)) in
  let w1 := snd (report cfg (MsgCurrent (rdata r mod 256))
                   (snd (sys (Read soil_drv_fd 1) w))) in
  rv r = 1 ->
  rdata r mod 256 < target cfg ->
  fst (gpio_on w1) = Ret GPIO_ERROR ->
  exists (res : Z) (w' : world Ev) (t : list (call * Z)),
    gpio_disable (snd (perror (snd (gpio_on w1)))) = (Ret res, w') /\
    loop_body cfg soil_drv_fd w = (Exit EXIT_FAILURE, w') /\
    trace w' = trace w ++ t /\
    Forall (fun e => is_sleep_call (fst e) = false) t.
Proof.
  intros r w1 Hrv Hlt Hon.
  destruct (report_returns cfg (MsgCurrent (rdata r mod 256))
              (snd (sys (Read soil_drv_fd 1) w))) as (w1' & t1 & E1 & T1 & Q1).
  assert (Hw1 : w1 = w1') by (subst w1; now rewrite E1). clearbody w1. subst w1'.
  destruct (gpio_level_returns true w1) as (e & w2 & t2 & E2 & T2 & Q2).
  cbn match in E2. rewrite E2 in Hon. cbn [fst] in Hon.
  injection Hon as ->.
  rewrite E2. cbn [snd].
  destruct (fatal_exit w2) as (res & w' & t3 & E3 & X3 & T3 & Q3).
  exists res, w', (((Read soil_drv_fd 1, 1) :: t1) ++ t2 ++ t3).
  split; [exact E3|]. split.
  - unfold loop_body, bind at 1. rewrite sys_eq. fold r.
    rewrite Hrv. cbn [Z.eqb Pos.eqb negb].
    rewrite sys_eq in E1. cbn [snd] in E1. fold r in E1. rewrite Hrv in E1.
    rewrite (bind_ret_eq _ _ _ _ _ E1).
    destruct (Z.ltb_spec (rdata r mod 256) (target cfg)) as [_|Hge]; [|lia].
    unfold bind at 1. unfold bind at 1. rewrite E2.
    cbn [GPIO_ERROR Z.eqb Pos.eqb]. rewrite X3. reflexivity.
  - split.
    + rewrite T3, T2, T1, sys_eq. cbn [snd trace]. fold r. rewrite Hrv.
      rewrite <- !app_assoc. reflexivity.
    + apply Forall_app. split.
      * constructor; [reflexivity | now apply quiet_no_sleep].
      * apply Forall_app. split; assumption.
Qed.

Lemma pump_on_failure_is_fatal_witness :
  exists (res : Z) (w' : world sysfs_env) (t : list (call * Z)),
    gpio_disable
      (snd (perror
         (snd (gpio_on
            (snd (report default_config (MsgCurrent (100 mod 256))
               (snd (sys (Read 3 1)
                  (mk_world (Ev := sysfs_env) pin_not_enabled []))))))))) =
      (Ret res, w') /\
    loop_body default_config 3 (mk_world (Ev := sysfs_env) pin_not_enabled [])
      = (Exit EXIT_FAILURE, w') /\
    trace w' = [] ++ t /\
    Forall (fun e => is_sleep_call (fst e) = false) t.
Proof.
  apply (pump_on_failure_is_fatal default_config 3
           (mk_world (Ev := sysfs_env) pin_not_enabled [])).
  - reflexivity.
  - vm_compute. reflexivity.
  - reflexivity.
Defined.

(** X18.  In any environment, when the pump was turned on and [gpio_off]
    then fails, the turn reports the error, runs [gpio_disable], whose
    first step shuts off the drive, drops its result and exits with
    [EXIT_FAILURE]: the only sleep of the turn is the pump time, and the
    loop does not go on to its poll sleep with the pump still on. *)
Theorem pump_off_failure_is_fatal {Ev : environment} (cfg : config)
    (soil_drv_fd : Z) (w : world Ev) :
  let r := fst (env_step Ev (est w) (Read soil_drv_fd 1)) in
  let w1 := snd (report cfg (MsgCurrent (rdata r mod 256))
                   (snd (sys (Read soil_drv_fd 1) w))) in
  let w2 := snd (sleep (pump_time cfg)
                   (snd (report cfg (MsgPumpOn (pump_time cfg))
                           (snd (gpio_on w1))))) in
  rv r = 1 ->
  rdata r mod 256 < target cfg ->
  fst (gpio_on w1) = Ret GPIO_OK ->
  fst (gpio_off w2) = Ret GPIO_ERROR ->
  exists (res : Z) (w' : world Ev) (t0 t : list (call * Z)) (v : Z),
    gpio_disable (snd (perror (snd (gpio_off w2)))) = (Ret res, w') /\
    loop_body cfg soil_drv_fd w = (Exit EXIT_FAILURE, w') /\
    trace w' =
      trace w ++ t0 ++ (Sleep (to_unsigned (pump_time cfg)), v) :: t /\
    Forall (fun e => is_sleep_call (fst e) = false) t0 /\
    Forall (fun e => is_sleep_call (fst e) = false) t /\
    (exists fd, hd_error (skipn (length (trace (snd (perror (snd (gpio_off w2))))))
                            (trace w'))
                = Some (Open GPIO_DIRECTION, fd)).
Proof.
  intros r w1 w2 Hrv Hlt Hon Hoff.
  destruct (report_returns cfg (MsgCurrent (rdata r mod 256))
              (snd (sys (Read soil_drv_fd 1) w))) as (w1' & t1 & E1 & T1 & Q1).
  assert (Hw1 : w1 = w1') by (subst w1; now rewrite E1).
  clearbody w1. subst w1'.
  destruct (gpio_level_returns true w1) as (e & wa & ta & Ea & Ta & Qa).
  cbn match in Ea. rewrite Ea in Hon. cbn [fst] in Hon. injection Hon as ->.
  destruct (report_returns cfg (MsgPumpOn (pump_time cfg)) wa)
    as (wb & tb & Eb & Tb & Qb).
  assert (Hw2 : w2 = snd (sleep (pump_time cfg) wb))
    by (subst w2; rewrite Ea; cbn [snd]; now rewrite Eb).
  clearbody w2. rewrite sleep_eq in Hw2. cbn [snd] in Hw2.
  destruct (gpio_level_returns false w2) as (e & wc & tc & Ec & Tc & Qc).
  cbn match in Ec. rewrite Ec in Hoff. cbn [fst] in Hoff. injection Hoff as ->.
  rewrite Ec. cbn [snd].
  destruct (gpio_disable_spec (snd (perror wc)))
    as (res0 & w0' & td0 & Ed0 & Td0 & Rd0).
  destruct (fatal_exit wc) as (res & w' & t3 & E3 & X3 & T3 & Q3).
  rewrite E3 in Ed0. injection Ed0 as <- <-.
  exists res, w', (((Read soil_drv_fd 1, 1) :: t1) ++ ta ++ tb), (tc ++ t3).
  eexists.
  split; [exact E3|]. split.
  - unfold loop_body, bind at 1. rewrite sys_eq. fold r.
    rewrite Hrv. cbn [Z.eqb Pos.eqb negb].
    rewrite sys_eq in E1. cbn [snd] in E1. fold r in E1. rewrite Hrv in E1.
    rewrite (bind_ret_eq _ _ _ _ _ E1).
    destruct (Z.ltb_spec (rdata r mod 256) (target cfg)) as [_|Hge]; [|lia].
    unfold bind at 1. unfold bind at 1. rewrite Ea.
    cbn [GPIO_OK GPIO_ERROR Z.eqb].
    rewrite (bind_ret_eq _ _ _ _ _ Eb).
    unfold bind at 1. rewrite sleep_eq. rewrite <- Hw2.
    unfold bind at 1. rewrite Ec.
    cbn [GPIO_ERROR Z.eqb Pos.eqb]. rewrite X3. reflexivity.
  - split.
    + rewrite T3, Tc, Hw2. cbn [trace]. rewrite Tb, Ta, T1, sys_eq.
      cbn [snd trace]. fold r. rewrite Hrv.
      rewrite <- !app_assoc. cbn [app]. reflexivity.
    + split.
      * apply Forall_app. split.
        -- constructor; [reflexivity | now apply quiet_no_sleep].
        -- apply Forall_app. split; [assumption | now apply quiet_no_sleep].
      * split; [apply Forall_app; split; assumption|].
        rewrite Td0, skipn_app, Nat.sub_diag, skipn_all. cbn [app skipn].
        destruct Rd0 as [[_ R1] | (u1 & u2 & f2 & -> & R1 & _)];
          inversion R1; subst; eexists; reflexivity.
Qed.

Lemma pump_off_failure_is_fatal_witness :
  let w := mk_world (Ev := stuck_high_env) tt [] in
  let w1 := snd (report default_config (MsgCurrent (100 mod 256))
                   (snd (sys (Read 3 1) w))) in
  let w2 := snd (sleep (pump_time default_config)
                   (snd (report default_config
                           (MsgPumpOn (pump_time default_config))
                           (snd (gpio_on w1))))) in
  exists (res : Z) (w' : world stuck_high_env) (t0 t : list (call * Z)) (v : Z),
    gpio_disable (snd (perror (snd (gpio_off w2)))) = (Ret res, w') /\
    loop_body default_config 3 w = (Exit EXIT_FAILURE, w') /\
    trace w' =
      trace w ++ t0 ++ (Sleep (to_unsigned (pump_time default_config)), v) :: t /\
    Forall (fun e => is_sleep_call (fst e) = false) t0 /\
    Forall (fun e => is_sleep_call (fst e) = false) t /\
    (exists fd, hd_error (skipn (length (trace (snd (perror (snd (gpio_off w2))))))
                            (trace w'))
                = Some (Open GPIO_DIRECTION, fd)).
Proof.
  apply (pump_off_failure_is_fatal default_config 3
           (mk_world (Ev := stuck_high_env) tt [])).
  - reflexivity.
  - vm_compute. reflexivity.
  - reflexivity.
  - reflexivity.
Defined.

(** ** The control loop on the sysfs files when the sensor fails *)

Lemma sysfs_loop_body_sensor_gone (cfg : config) (soil_drv_fd : Z)
    (st : sysfs) (t : list (call * Z)) :
  fd_lookup soil_drv_fd (fds st) = Some FSoilDev ->
  readings st = [] ->
  loop_body cfg soil_drv_fd (mk_world (Ev := sysfs_env) st t) =
  (Exit EXIT_FAILURE,
   snd (gpio_disable
          (mk_world (Ev := sysfs_env) st
             ((t ++ [(Read soil_drv_fd 1, -1)]) ++ [(Perror, 0)])))).
Proof.
  intros Hfd Hrd.
  unfold loop_body, bind at 1. rewrite sys_eq.
  cbn [est trace env_step sysfs_env sysfs_step]. unfold sysfs_read.
  rewrite Hfd, Hrd. cbn [sysfs_failed fst snd rv Z.eqb negb].
  unfold bind at 1. rewrite perror_eq.
  cbn [est trace env_step sysfs_env sysfs_step fst snd rv].
  unfold bind, exit. rewrite sysfs_gpio_disable.
  destruct (exported st); reflexivity.
Qed.

(** X19.  On the sysfs files, with the pin enabled: when the sensor gives
    the bytes [bs] and then fails, the loop runs the turns for [bs] as
    usual, and in the next turn exits with [EXIT_FAILURE] having released
    the drive and unexported the pin; the turns that were still to come
    are not run. *)
Theorem sensor_failure_releases_pin (cfg : config) (soil_drv_fd : Z)
    (bs : list Z) (m : nat) (st : sysfs) (t : list (call * Z)) :
  exported st = true ->
  direction_out st = true ->
  fd_lookup soil_drv_fd (fds st) = Some FSoilDev ->
  readings st = bs ->
  Forall (fun b => 0 <= b < 256) bs ->
  0 <= pump_time cfg < 2 ^ 32 ->
  0 <= sleep_time cfg < 2 ^ 32 ->
  exists (hi : bool) (n : nat) (t' : list (call * Z)),
    main_loop (length bs + S m) cfg soil_drv_fd (mk_world (Ev := sysfs_env) st t) =
    (Exit EXIT_FAILURE,
     mk_world (Ev := sysfs_env)
       (mk_sysfs false false hi (fds st) n []
          (pin_log st ++ flat_map (pump_cycle cfg) bs ++ [Release]))
       t').
Proof.
  intros Hex Hout Hfd Hrd Hbs Hpump Hsleep.
  revert st t Hex Hout Hfd Hrd.
  induction Hbs as [|b bs Hb Hbs IH]; intros st t Hex Hout Hfd Hrd.
  - cbn [length Nat.add main_loop flat_map app].
    unfold bind. rewrite (sysfs_loop_body_sensor_gone cfg soil_drv_fd st t Hfd Hrd).
    rewrite sysfs_gpio_disable, Hex. cbn [snd].
    rewrite Hrd. do 3 eexists. reflexivity.
  - cbn [length Nat.add main_loop flat_map].
    destruct (sysfs_loop_body cfg soil_drv_fd st t b bs
                Hex Hout Hfd Hrd Hb Hpump Hsleep) as (hi1 & n1 & t1 & E1).
    rewrite (bind_ret_eq _ _ _ _ _ E1).
    destruct (IH (mk_sysfs true true hi1 (fds st) n1 bs
                    (pin_log st ++ pump_cycle cfg b)) t1
                eq_refl eq_refl Hfd eq_refl) as (hi & n & t' & E).
    exists hi, n, t'. rewrite E.
    cbn [fds pin_log]. rewrite <- !app_assoc. reflexivity.
Qed.

Lemma sensor_failure_releases_pin_witness :
  exists (hi : bool) (n : nat) (t' : list (call * Z)),
    main_loop (2 + 8) default_config 3
      (mk_world (Ev := sysfs_env) running_sysfs []) =
    (Exit EXIT_FAILURE,
     mk_world (Ev := sysfs_env)
       (mk_sysfs false false hi [(3, FSoilDev)] n []
          ([Drive false] ++
           [Drive true; Elapsed 5; Drive false; Elapsed 3600; Elapsed 3600]
           ++ [Release]))
       t').
Proof.
  apply (sensor_failure_releases_pin default_config 3 [100; 150] 7
           running_sysfs []);
    try reflexivity.
  - repeat constructor; cbn; lia.
  - cbn. lia.
  - cbn. lia.
Defined.

End AppFurther.


(* ===================================================================== *)
(** * Properties of loading and unloading the module *)
(* ===================================================================== *)

Section LifecycleProperties.

Import Driver DriverLifecycle.

Lemma remove_one_head (x : Z) (l : list Z) : remove_one x (x :: l) = Some l.
Proof. cbn [remove_one]. now rewrite Z.eqb_refl. Qed.

Lemma held_app (h : holdings) (t1 t2 : list kcall) :
  held h (t1 ++ t2) =
  match held h t1 with
  | Some h' => held h' t2
  | None => None
  end.
Proof.
  revert h. induction t1 as [|c t1 IH]; intros h; cbn [app held].
  - reflexivity.
  - destruct (hold_step h c); [apply IH | reflexivity].
Qed.

Lemma IS_ERR_range (ptr : Z) : IS_ERR ptr = true -> - MAX_ERRNO <= ptr < 0.
Proof. unfold IS_ERR. intros H. apply andb_true_iff in H. lia. Qed.

Lemma MKDEV_MAJOR_MINOR (dev : Z) : MKDEV (MAJOR dev) (MINOR dev) = dev.
Proof.
  unfold MKDEV, MAJOR, MINOR.
  rewrite <- Z.ldiff_ones_r by (unfold MINORBITS; lia).
  apply Z.lor_ldiff_and.
Qed.

(** The calls of an [i2c_soil_drv_init] that got as far as [cdev_add], and
    what the module holds after them. *)
Lemma held_after_four_calls (a : init_answers) (mi devnum : Z) :
  0 <= alloc_ret a ->
  adapter_ptr a <> 0 ->
  IS_ERR (client_ptr a) = false ->
  held nothing_held
    ((((([AllocChrdevRegion mi NUM_MINORS (alloc_ret a) devnum] ++ [CdevInit])
          ++ [I2cGetAdapter I2C_BUS_NUM (adapter_ptr a)])
         ++ [I2cNewDummyDevice (adapter_ptr a) I2C_BUS_ADDR (client_ptr a)])
        ++ [CdevAdd devnum NUM_MINORS (cdev_add_ret a)])) =
  Some (if cdev_add_ret a <? 0
        then mk_holdings [devnum] [client_ptr a] 0 [adapter_ptr a]
        else mk_holdings [devnum] [client_ptr a] 1 [adapter_ptr a]).
Proof.
  intros H1 H2 H3. cbn [app held hold_step].
  destruct (Z.ltb_spec (alloc_ret a) 0) as [?|_]; [lia|].
  destruct (Z.eqb_spec (adapter_ptr a) 0) as [?|_]; [contradiction|].
  cbn [held hold_step regions clients cdevs adapters nothing_held].
  rewrite H3.
  destruct (cdev_add_ret a <? 0); reflexivity.
Qed.

(** X20.  [i2c_soil_drv_init] returns 0 exactly when its four calls
    succeed.  The device then starts zeroed, so with the simulation off
    whatever the globals held before, the major number of the region is
    saved, and the module holds the region, the client, the character
    device and the reference to the adapter. *)
Theorem init_succeeds_iff (a : init_answers) (m : module_state) :
  let r := i2c_soil_drv_init a m in
  (fst (fst r) = 0 <->
   0 <= alloc_ret a /\ adapter_ptr a <> 0 /\ IS_ERR (client_ptr a) = false /\
   0 <= cdev_add_ret a) /\
  (fst (fst r) = 0 ->
   snd (fst r) =
     mk_module (MAJOR (alloc_devnum a)) (i2c_soil_dev_minor m) (mk_dev 0 0)
               (adapter_ptr a) (client_ptr a) /\
   held nothing_held (snd r) =
     Some (mk_holdings [alloc_devnum a] [client_ptr a] 1 [adapter_ptr a])).
Proof.
  unfold i2c_soil_drv_init, ENOMEM, PTR_ERR.
  destruct (Z.ltb_spec (alloc_ret a) 0) as [H1|H1]; cbn [fst snd].
  { split; [split; [lia | intros (? & _); lia] | lia]. }
  destruct (Z.eqb_spec (adapter_ptr a) 0) as [H2|H2]; cbn [fst snd].
  { split; [split; [lia | intros (_ & ? & _); contradiction] | lia]. }
  destruct (IS_ERR (client_ptr a)) eqn:H3; cbn [fst snd].
  { apply IS_ERR_range in H3. unfold MAX_ERRNO in H3.
    split; [split; [lia | intros (_ & _ & ? & _); discriminate] | lia]. }
  destruct (Z.ltb_spec (cdev_add_ret a) 0) as [H4|H4]; cbn [fst snd].
  { split; [split; [lia | intros (_ & _ & _ & ?); lia] | lia]. }
  split; [split; [intros _; repeat split; assumption | reflexivity]|].
  intros _. split; [reflexivity|].
  rewrite (held_after_four_calls a _ _ H1 H2 H3).
  destruct (Z.ltb_spec (cdev_add_ret a) 0) as [?|_]; [lia | reflexivity].
Qed.



(** X22.  After an [i2c_soil_drv_init] that succeeded on a region whose
    minor is the one asked for, [i2c_soil_drv_cleanup] deletes the
    character device, unregisters the client and unregisters the very
    region that was allocated, in this order, the reverse of the
    acquisition: the device number it rebuilds from the saved major is the
    one [alloc_chrdev_region] gave.  Afterwards no region, client or
    character device is held; the reference to the adapter still is, since
    the cleanup does not give it back. *)
Theorem init_then_cleanup_keeps_only_adapter (a : init_answers)
    (m : module_state) :
  fst (fst (i2c_soil_drv_init a m)) = 0 ->
  MINOR (alloc_devnum a) = i2c_soil_dev_minor m ->
  i2c_soil_drv_cleanup (snd (fst (i2c_soil_drv_init a m))) =
    [CdevDel; I2cUnregisterDevice (client_ptr a);
     UnregisterChrdevRegion (alloc_devnum a) NUM_MINORS] /\
  held nothing_held
       (snd (i2c_soil_drv_init a m)
        ++ i2c_soil_drv_cleanup (snd (fst (i2c_soil_drv_init a m))))
    = Some (mk_holdings [] [] 0 [adapter_ptr a]).
Proof.
  intros H0 Hminor.
  assert (Hs : snd (fst (i2c_soil_drv_init a m)) =
                 mk_module (MAJOR (alloc_devnum a)) (i2c_soil_dev_minor m)
                           (mk_dev 0 0) (adapter_ptr a) (client_ptr a) /\
               held nothing_held (snd (i2c_soil_drv_init a m)) =
                 Some (mk_holdings [alloc_devnum a] [client_ptr a] 1
                                   [adapter_ptr a])).
  { revert H0. unfold i2c_soil_drv_init, ENOMEM, PTR_ERR.
    destruct (Z.ltb_spec (alloc_ret a) 0) as [H1|H1]; cbn [fst snd]; [lia|].
    destruct (Z.eqb_spec (adapter_ptr a) 0) as [H2|H2]; cbn [fst snd]; [lia|].
    destruct (IS_ERR (client_ptr a)) eqn:H3; cbn [fst snd].
    { apply IS_ERR_range in H3. unfold MAX_ERRNO in H3. lia. }
    destruct (Z.ltb_spec (cdev_add_ret a) 0) as [H4|H4]; cbn [fst snd]; [lia|].
    intros _. split; [reflexivity|].
    rewrite (held_after_four_calls a _ _ H1 H2 H3).
    destruct (Z.ltb_spec (cdev_add_ret a) 0) as [?|_]; [lia | reflexivity]. }
  destruct Hs as [Hm Hh].
  assert (Hc : i2c_soil_drv_cleanup (snd (fst (i2c_soil_drv_init a m))) =
               [CdevDel; I2cUnregisterDevice (client_ptr a);
                UnregisterChrdevRegion (alloc_devnum a) NUM_MINORS]).
  { rewrite Hm. unfold i2c_soil_drv_cleanup.
    cbn [i2c_soil_dev_major i2c_soil_dev_minor p_i2c_client].
    rewrite <- Hminor, MKDEV_MAJOR_MINOR. reflexivity. }
  split; [exact Hc|].
  rewrite held_app, Hh, Hc.
  cbn [held hold_step regions clients cdevs adapters].
  rewrite remove_one_head. cbn [held hold_step regions clients cdevs adapters].
  rewrite remove_one_head. reflexivity.
Qed.

Lemma init_then_cleanup_keeps_only_adapter_witness :
  i2c_soil_drv_cleanup (snd (fst (i2c_soil_drv_init all_fine module_loaded))) =
    [CdevDel; I2cUnregisterDevice (client_ptr all_fine);
     UnregisterChrdevRegion (alloc_devnum all_fine) NUM_MINORS] /\
  held nothing_held
       (snd (i2c_soil_drv_init all_fine module_loaded)
        ++ i2c_soil_drv_cleanup
             (snd (fst (i2c_soil_drv_init all_fine module_loaded))))
    = Some (mk_holdings [] [] 0 [adapter_ptr all_fine]).
Proof.
  apply (init_then_cleanup_keeps_only_adapter all_fine module_loaded);
    reflexivity.
Defined.

End LifecycleProperties.
